(** * Environment opcodes and the VM driver of py-evm

    A shallow embedding of [evm/logic/context.py] (the environment
    opcodes) and of the parts of [evm/vm/base.py] that the opcodes and
    the block driver rely on ([state_db], [get_ancestor_hash],
    [get_opcode_fn]), followed by the properties of these functions.

    Python integers are unbounded: stack words, sizes, offsets and gas
    are [N]; block numbers, whose difference may be negative, are [Z].
    Byte strings are [list byte].  A Python exception is a [Raise]
    result; every mutation made before the exception stays in the
    state that is returned with it. *)

From Stdlib Require Import NArith ZArith Lia List.
From Stdlib Require Import Strings.Byte.
From stdpp Require Import base numbers list strings gmap.

Set Default Proof Using "Type".

Abbreviation bytes := (list byte).
Abbreviation Address := (list byte).
Abbreviation Hash := (list byte).

(** ** Exceptions and results *)

Inductive VMError : Type :=
| StackUnderflow
| StackOverflow
| OutOfGas
| ValidationError
| AssertionError
| KeyError
| InvalidInstruction (value : N)
| OtherError (tag : N).

Inductive Result (A : Type) : Type :=
| Ok (a : A)
| Raise (e : VMError).
Arguments Ok {A} a.
Arguments Raise {A} e.

(** Python's built-in [TypeError]. *)
Definition TypeError : VMError := OtherError 2.

(** ** Byte-string helpers *)

Global Instance byte_eq_decision : EqDecision byte := Byte.byte_eq_dec.

(** [evm.utils.numeric.ceil32] *)
Definition ceil32 (value : N) : N :=
  let remainder := (value mod 32)%N in
  if (remainder =? 0)%N then value else (value + 32 - remainder)%N.

(** Python's [b[start:stop]] for non-negative bounds. *)
Definition slice (b : bytes) (start stop : N) : bytes :=
  take (N.to_nat stop - N.to_nat start) (drop (N.to_nat start) b).

(** Python's [bytes.lstrip] for a one-byte argument. *)
Fixpoint lstrip (b : bytes) (c : byte) : bytes :=
  match b with
  | [] => []
  | x :: rest => if decide (x = c) then lstrip rest c else b
  end.

(** Modelled from the spec: [evm.utils.padding.pad_right] is imported by
    context.py but its file is not part of the sources.  The spec's
    "zero-padding on the right" (4.5, 8): the value is followed by as
    many copies of the pad byte as are needed to reach [to_size]; a value
    that is already long enough is returned as it is. *)
Definition pad_right (value : bytes) (to_size : N) (pad_with : byte) : bytes :=
  let pad_amount := (Z.of_N to_size - Z.of_nat (length value))%Z in
  if (0 <? pad_amount)%Z
  then value ++ replicate (Z.to_nat pad_amount) pad_with
  else value.

(** Modelled from the spec: the "big-endian integer interpretation" of a
    byte string (4.5); the empty string is 0. *)
Definition big_endian_to_int (b : bytes) : N :=
  fold_left (fun acc x => (acc * 256 + Byte.to_N x)%N) b 0%N.

(** ** Collaborators that are only known through their interface *)

(** The state-access interface (spec 6), as far as the opcodes and the VM
    driver use it.  [new_state db r] is Python's
    [State(db=db, root_hash=r)]. *)
Class StateAccess : Type := {
  DB : Type;
  State : Type;
  new_state : DB -> Hash -> State;
  root_hash : State -> Hash;
  get_balance : State -> Address -> N;
  get_code : State -> Address -> bytes;
  root_hash_new_state : forall db r, root_hash (new_state db r) = r
}.

(** [constants.GAS_COPY] and the memory-expansion cost function; the
    constants module is not part of the sources and the spec leaves the
    gas schedule open ("injected as configuration"). *)
Class GasSchedule : Type := {
  GAS_COPY : N;
  memory_gas_cost : N -> N
}.

(** Coercions of [evm.utils] whose definitions are not part of the
    sources and that the spec does not describe. *)
Class Coercions : Type := {
  int_to_big_endian : N -> bytes;
  force_bytes_to_address : bytes -> Address
}.

(** ** Stack (spec 4.1) *)

(** A stack slot holds what was pushed: an integer or a byte string.  The
    type hint of [pop] chooses the reading. *)
Inductive StackItem : Type :=
| IntItem (n : N)
| BytesItem (b : bytes).

Definition item_to_uint256 (v : StackItem) : N :=
  match v with
  | IntItem n => n
  | BytesItem b => big_endian_to_int b
  end.

Definition item_to_bytes `{Coercions} (v : StackItem) : bytes :=
  match v with
  | IntItem n => int_to_big_endian n
  | BytesItem b => b
  end.

(** The head of the list is the top of the stack. *)
Abbreviation Stack := (list StackItem).

(** Modelled from the spec: "max depth (e.g. 1024)" (3). *)
Definition STACK_DEPTH_LIMIT : nat := 1024.

(** Modelled from the spec: [Stack.push] "fails with StackOverflow past
    capacity". *)
Definition stack_push (v : StackItem) (s : Stack) : Stack * Result unit :=
  if (STACK_DEPTH_LIMIT <=? length s)%nat
  then (s, Raise StackOverflow)
  else (v :: s, Ok tt).

(** Modelled from the spec: [Stack.pop(count, type_hint)] "fails with
    StackUnderflow if fewer than count items exist"; the items come back
    in the order they are popped, the top first. *)
Definition stack_pop (num_items : nat) (s : Stack) : Stack * Result (list StackItem) :=
  if (length s <? num_items)%nat
  then (s, Raise StackUnderflow)
  else (drop num_items s, Ok (take num_items s)).

(** ** Memory (spec 4.2) *)

Abbreviation Memory := (list byte).

(** Modelled from the spec: [Memory.extend(start, size)]: "if start+size
    exceeds current size, grows to the next multiple of 32 bytes >=
    start+size, zero-filling new bytes; is idempotent if already large
    enough; never shrinks". *)
Definition memory_extend (start_position size : N) (m : Memory) : Memory :=
  if (N.of_nat (length m) <? start_position + size)%N
  then m ++ replicate (N.to_nat (ceil32 (start_position + size)) - length m) x00
  else m.

(** Modelled from the spec: [Memory.write(start, size, data)] "requires
    len(data) == size and the region already extended". *)
Definition memory_write (start_position size : N) (value : bytes) (m : Memory)
  : Memory * Result unit :=
  if negb (N.of_nat (length value) =? size)%N then (m, Raise ValidationError)
  else if (N.of_nat (length m) <? start_position + size)%N then (m, Raise ValidationError)
  else (take (N.to_nat start_position) m ++ value
          ++ drop (N.to_nat (start_position + size)) m, Ok tt).

(** ** GasMeter (spec 4.3) *)

Record GasMeter : Type := {
  gas_remaining : N;
  gas_refunded : N
}.

(** Modelled from the spec: [GasMeter.consume_gas(amount, reason)] "fails
    with OutOfGas if amount > remaining; otherwise decrements". *)
Definition meter_consume_gas (amount : N) (g : GasMeter) : GasMeter * Result unit :=
  if (gas_remaining g <? amount)%N
  then (g, Raise OutOfGas)
  else ({| gas_remaining := gas_remaining g - amount;
           gas_refunded := gas_refunded g |}, Ok tt).

(** ** CodeStream (spec 4.4) *)

Record CodeStream : Type := {
  code_bytes : bytes;
  pc : N
}.

(** Modelled from the spec: [CodeStream.read(n)] "returns up to n bytes,
    short if past end"; the cursor moves past what was read. *)
Definition code_read (size : N) (cs : CodeStream) : CodeStream * bytes :=
  let chunk := slice (code_bytes cs) (pc cs) (pc cs + size) in
  ({| code_bytes := code_bytes cs; pc := pc cs + N.of_nat (length chunk) |}, chunk).

(** Modelled from the spec: [CodeStream.seek(position)] "returns a scoped
    cursor": the body runs with the cursor at [position] and the former
    cursor is put back when the scope ends. *)
Definition code_seek {A} (position : N) (body : CodeStream -> CodeStream * A)
    (cs : CodeStream) : CodeStream * A :=
  let anchor_pc := pc cs in
  let '(cs', a) := body {| code_bytes := code_bytes cs; pc := position |} in
  ({| code_bytes := code_bytes cs'; pc := anchor_pc |}, a).

(** ** Message, block header, VM and Computation *)

Record Message : Type := {
  msg_origin : Address;
  msg_sender : Address;
  msg_storage_address : Address;
  msg_value : N;
  msg_gas_price : N;
  msg_data : bytes
}.

Record BlockHeader : Type := {
  state_root : Hash;
  parent_hash : Hash;
  block_number : Z;
  coinbase : Address
}.

Record Block : Type := {
  header : BlockHeader
}.

(** Modelled from the spec: the block class is not part of the sources;
    the "block/header collaborator" supplies [number] (6), the number of
    the block's header. *)
Definition number (b : Block) : Z := block_number (header b).

(** The header store behind [evm.utils.blocks.get_block_header_by_hash]
    and the [hash] property of a header; neither is part of the sources. *)
Class ChainAccess `{StateAccess} : Type := {
  header_hash : BlockHeader -> Hash;
  get_block_header_by_hash : DB -> Hash -> Result BlockHeader
}.

Section Machine.
Context `{SA : StateAccess} `{GS : GasSchedule} `{CO : Coercions}.

Record VM : Type := {
  vm_db : DB;
  block : Block
}.

Record Computation : Type := {
  stack : Stack;
  memory : Memory;
  gas_meter : GasMeter;
  msg : Message;
  code : CodeStream;
  vm : VM
}.

Definition set_stack (s : Stack) (c : Computation) : Computation :=
  {| stack := s; memory := memory c; gas_meter := gas_meter c;
     msg := msg c; code := code c; vm := vm c |}.

Definition set_memory (m : Memory) (c : Computation) : Computation :=
  {| stack := stack c; memory := m; gas_meter := gas_meter c;
     msg := msg c; code := code c; vm := vm c |}.

Definition set_gas_meter (g : GasMeter) (c : Computation) : Computation :=
  {| stack := stack c; memory := memory c; gas_meter := g;
     msg := msg c; code := code c; vm := vm c |}.

Definition set_code (cs : CodeStream) (c : Computation) : Computation :=
  {| stack := stack c; memory := memory c; gas_meter := gas_meter c;
     msg := msg c; code := cs; vm := vm c |}.

Definition set_vm (v : VM) (c : Computation) : Computation :=
  {| stack := stack c; memory := memory c; gas_meter := gas_meter c;
     msg := msg c; code := code c; vm := v |}.

(** [self.block.header.state_root = r] *)
Definition set_state_root (r : Hash) (v : VM) : VM :=
  {| vm_db := vm_db v;
     block := {| header := {| state_root := r;
                              parent_hash := parent_hash (header (block v));
                              block_number := block_number (header (block v));
                              coinbase := coinbase (header (block v)) |} |} |}.

(** ** The monad of opcode logic: state passing with exceptions *)

Definition M (A : Type) : Type := Computation -> Computation * Result A.

Definition ret {A} (a : A) : M A := fun c => (c, Ok a).

Definition raise {A} (e : VMError) : M A := fun c => (c, Raise e).

Definition bind {A B} (m : M A) (k : A -> M B) : M B :=
  fun c =>
    match m c with
    | (c', Ok a) => k a c'
    | (c', Raise e) => (c', Raise e)
    end.

End Machine.

Declare Scope evm_scope.
Delimit Scope evm_scope with evm.
Notation "x <~ m ;; k" := (bind m (fun x => k))
  (at level 100, m at next level, right associativity) : evm_scope.
Notation "m ;;; k" := (bind m (fun _ => k))
  (at level 100, right associativity) : evm_scope.
Local Open Scope evm_scope.

Section Logic.
Context `{SA : StateAccess} `{GS : GasSchedule} `{CO : Coercions}.

Definition lift_stack {A} (f : Stack -> Stack * Result A) : M A :=
  fun c => let '(s, r) := f (stack c) in (set_stack s c, r).

Definition lift_memory {A} (f : Memory -> Memory * Result A) : M A :=
  fun c => let '(m, r) := f (memory c) in (set_memory m c, r).

Definition lift_gas {A} (f : GasMeter -> GasMeter * Result A) : M A :=
  fun c => let '(g, r) := f (gas_meter c) in (set_gas_meter g c, r).

Definition lift_code {A} (f : CodeStream -> CodeStream * A) : M A :=
  fun c => let '(cs, a) := f (code c) in (set_code cs c, Ok a).

Definition lift_vm {A} (f : VM -> VM * Result A) : M A :=
  fun c => let '(v, r) := f (vm c) in (set_vm v c, r).

(** [computation.stack.push(value)] *)
Definition push (v : StackItem) : M unit := lift_stack (stack_push v).

(** [computation.stack.pop(type_hint=constants.UINT256)] *)
Definition pop_uint256 : M N :=
  items <~ lift_stack (stack_pop 1) ;;
  match items with
  | [v] => ret (item_to_uint256 v)
  | _ => raise StackUnderflow
  end.

(** [computation.stack.pop(type_hint=constants.BYTES)] *)
Definition pop_bytes : M bytes :=
  items <~ lift_stack (stack_pop 1) ;;
  match items with
  | [v] => ret (item_to_bytes v)
  | _ => raise StackUnderflow
  end.

(** [computation.stack.pop(num_items=3, type_hint=constants.UINT256)] *)
Definition pop3_uint256 : M (N * N * N) :=
  items <~ lift_stack (stack_pop 3) ;;
  match items with
  | [v1; v2; v3] => ret (item_to_uint256 v1, item_to_uint256 v2, item_to_uint256 v3)
  | _ => raise StackUnderflow
  end.

(** [computation.gas_meter.consume_gas(amount, reason=...)] *)
Definition consume_gas (amount : N) : M unit := lift_gas (meter_consume_gas amount).

(** Modelled from the spec: [Computation.extend_memory] is not part of
    the sources.  Memory expansion is "a separate, distinct memory
    expansion cost ... based on high-water-mark growth ..., kept as a
    pluggable cost function" (4.2): the growth of [memory_gas_cost]
    between the present and the requested word-aligned size is consumed,
    then [Memory.extend] runs.  With [memory_gas_cost] constantly zero
    this is [Memory.extend] alone. *)
Definition extend_memory (start_position size : N) : M unit :=
  fun c =>
    let before_size := ceil32 (N.of_nat (length (memory c))) in
    let after_size := ceil32 (start_position + size) in
    let before_cost := memory_gas_cost before_size in
    let after_cost := memory_gas_cost after_size in
    ((if (before_cost <? after_cost)%N
      then consume_gas (after_cost - before_cost)
      else ret tt) ;;;
     lift_memory (fun m => (memory_extend start_position size m, Ok tt))) c.

(** ** [VM.state_db]: the scoped access to the state (base.py) *)

(** The statements after the [yield]. *)
Definition state_db_release (read_only : bool) (state : State) (v : VM)
  : VM * Result unit :=
  if read_only then
    if decide (root_hash state = state_root (header (block v)))
    then (v, Ok tt)
    else (v, Raise AssertionError)
  else if decide (state_root (header (block v)) <> root_hash state)
  then (set_state_root (root_hash state) v, Ok tt)
  else (v, Ok tt).

(** The generator has no [try]/[finally] around its [yield]: an
    exception of the body is re-raised at the [yield] and leaves the
    generator there.  The body is the code inside the [with]; it works on
    the yielded [State] object and may reach the VM as well. *)
Definition state_db {A} (read_only : bool)
    (body : State -> VM -> State * VM * Result A) (v : VM) : VM * Result A :=
  let state := new_state (vm_db v) (state_root (header (block v))) in
  match body state v with
  | (_, v', Raise e) => (v', Raise e)
  | (state', v', Ok a) =>
      match state_db_release read_only state' v' with
      | (v'', Ok _) => (v'', Ok a)
      | (v'', Raise e) => (v'', Raise e)
      end
  end.

(** A body that only reads the yielded state. *)
Definition reading {A} (f : State -> A) : State -> VM -> State * VM * Result A :=
  fun state v => (state, v, Ok (f state)).

(** ** The environment opcodes (context.py) *)

Definition balance : M unit :=
  raw <~ pop_bytes ;;
  let addr := force_bytes_to_address raw in
  balance <~ lift_vm (state_db true (reading (fun state_db => get_balance state_db addr))) ;;
  push (IntItem balance).

Definition origin : M unit := fun c => push (BytesItem (msg_origin (msg c))) c.

Definition address : M unit := fun c => push (BytesItem (msg_storage_address (msg c))) c.

Definition caller : M unit := fun c => push (BytesItem (msg_sender (msg c))) c.

Definition callvalue : M unit := fun c => push (IntItem (msg_value (msg c))) c.

Definition calldataload : M unit :=
  start_position <~ pop_uint256 ;;
  fun c =>
    let value := slice (msg_data (msg c)) start_position (start_position + 32) in
    let padded_value := pad_right value 32 x00 in
    let normalized_value := lstrip padded_value x00 in
    push (BytesItem normalized_value) c.

Definition calldatasize : M unit :=
  fun c =>
    let size := N.of_nat (length (msg_data (msg c))) in
    push (IntItem size) c.

Definition calldatacopy : M unit :=
  args <~ pop3_uint256 ;;
  let '(mem_start_position, calldata_start_position, size) := args in
  extend_memory mem_start_position size ;;;
  let word_count := (ceil32 size / 32)%N in
  let copy_gas_cost := (word_count * GAS_COPY)%N in
  consume_gas copy_gas_cost ;;;
  fun c =>
    let value := slice (msg_data (msg c)) calldata_start_position
                       (calldata_start_position + size) in
    let padded_value := pad_right value size x00 in
    lift_memory (memory_write mem_start_position size padded_value) c.

Definition codesize : M unit :=
  fun c =>
    let size := N.of_nat (length (code_bytes (code c))) in
    push (IntItem size) c.

Definition codecopy : M unit :=
  args <~ pop3_uint256 ;;
  let '(mem_start_position, code_start_position, size) := args in
  extend_memory mem_start_position size ;;;
  let word_count := (ceil32 size / 32)%N in
  let copy_gas_cost := (GAS_COPY * word_count)%N in
  consume_gas copy_gas_cost ;;;
  code_bytes <~ lift_code (code_seek code_start_position (code_read size)) ;;
  let padded_code_bytes := pad_right code_bytes size x00 in
  lift_memory (memory_write mem_start_position size padded_code_bytes).

Definition gasprice : M unit := fun c => push (IntItem (msg_gas_price (msg c))) c.

Definition extcodesize : M unit :=
  raw <~ pop_bytes ;;
  let account := force_bytes_to_address raw in
  code_size <~ lift_vm (state_db true (reading (fun state_db =>
                 N.of_nat (length (get_code state_db account))))) ;;
  push (IntItem code_size).

Definition extcodecopy : M unit :=
  raw <~ pop_bytes ;;
  let account := force_bytes_to_address raw in
  args <~ pop3_uint256 ;;
  let '(mem_start_position, code_start_position, size) := args in
  extend_memory mem_start_position size ;;;
  let word_count := (ceil32 size / 32)%N in
  let copy_gas_cost := (GAS_COPY * word_count)%N in
  consume_gas copy_gas_cost ;;;
  code <~ lift_vm (state_db true (reading (fun state_db => get_code state_db account))) ;;
  let code_bytes := slice code code_start_position (code_start_position + size) in
  let padded_code_bytes := pad_right code_bytes size x00 in
  lift_memory (memory_write mem_start_position size padded_code_bytes).

End Logic.

(** ** The VM driver (base.py) *)

Section Driver.
Context `{CA : ChainAccess}.

(** The [while] loop of [get_ancestor_hash], started at header [h]; the
    fuel bounds the number of turns, [None] is a loop that has not ended
    within it. *)
Fixpoint ancestor_walk (fuel : nat) (db : DB) (h : BlockHeader) (wanted : Z)
  : option (Result Hash) :=
  if (block_number h =? wanted)%Z then Some (Ok (header_hash h))
  else
    match fuel with
    | O => None
    | S fuel' =>
        match get_block_header_by_hash db (parent_hash h) with
        | Ok h' => ancestor_walk fuel' db h' wanted
        | Raise e => Some (Raise e)
        end
    end.

Definition get_ancestor_hash (fuel : nat) (self : VM) (block_number : Z)
  : option (Result Hash) :=
  let ancestor_depth := (number (block self) - block_number)%Z in
  if (ancestor_depth >? 256)%Z || (ancestor_depth <? 1)%Z then Some (Ok [])
  else
    match get_block_header_by_hash (vm_db self) (parent_hash (header (block self))) with
    | Ok h => ancestor_walk fuel (vm_db self) h block_number
    | Raise e => Some (Raise e)
    end.

End Driver.

Section Dispatch.
Context `{SA : StateAccess}.

(** Modelled from the spec: [evm.logic.invalid.InvalidOpcode] is
    imported by base.py but its file is not part of the sources; it is
    the "InvalidOpcode(byte) operation that always fails" (6).  An entry
    of the opcode table is the logic of a mapped opcode or this
    sentinel. *)
Inductive Opcode : Type :=
| OpcodeFn (logic : M unit)
| InvalidOpcode (value : N).

(** Calling an operation on a computation. *)
Definition call_opcode (op : Opcode) : M unit :=
  match op with
  | OpcodeFn logic => logic
  | InvalidOpcode value => raise (InvalidInstruction value)
  end.

(** Python's [d[k]] on a dict. *)
Definition dict_getitem {V} (d : gmap N V) (k : N) : Result V :=
  match d !! k with
  | Some v => Ok v
  | None => Raise KeyError
  end.

(** [self.opcodes[opcode]].  The class attribute [opcodes] is [None]
    (base.py, line 32) until a VM class sets a table; subscripting [None]
    raises [TypeError]. *)
Definition opcodes_getitem {V} (opcodes : option (gmap N V)) (opcode : N) : Result V :=
  match opcodes with
  | None => Raise TypeError
  | Some table => dict_getitem table opcode
  end.

(** [VM.get_opcode_fn]: only [KeyError] is caught. *)
Definition get_opcode_fn (opcodes : option (gmap N Opcode)) (opcode : N) : Result Opcode :=
  match opcodes_getitem opcodes opcode with
  | Ok fn => Ok fn
  | Raise KeyError => Ok (InvalidOpcode opcode)
  | Raise e => Raise e
  end.

End Dispatch.

(** ** An in-memory instance of the collaborators

    Used to run the definitions on concrete inputs. *)

Module InMemory.

Record Account : Type := {
  account_balance : N;
  account_code : bytes
}.

(** The database maps a state root to the accounts stored under it. *)
Definition Store : Type := Hash -> Address -> option Account.

Record View : Type := {
  view_store : Store;
  view_root : Hash
}.

Definition account (s : View) (a : Address) : option Account :=
  view_store s (view_root s) a.

#[export] Instance state_access : StateAccess := {|
  DB := Store;
  State := View;
  new_state := fun db r => {| view_store := db; view_root := r |};
  root_hash := view_root;
  get_balance := fun s a =>
    match account s a with Some acc => account_balance acc | None => 0%N end;
  get_code := fun s a =>
    match account s a with Some acc => account_code acc | None => [] end;
  root_hash_new_state := fun _ _ => eq_refl
|}.

(** A gas schedule with the linear and quadratic memory cost. *)
Definition metered_memory : GasSchedule := {|
  GAS_COPY := 3;
  memory_gas_cost := fun size_in_bytes =>
    let size_in_words := (ceil32 size_in_bytes / 32)%N in
    (size_in_words * 3 + size_in_words * size_in_words / 512)%N
|}.

(** A gas schedule in which memory expansion is not charged here. *)
Definition free_memory : GasSchedule := {|
  GAS_COPY := 3;
  memory_gas_cost := fun _ => 0%N
|}.

(** The base-256 digits of [n], the most significant first. *)
Fixpoint digits_256 (fuel : nat) (n : N) (acc : bytes) : bytes :=
  match fuel with
  | O => acc
  | S fuel' =>
      if (n =? 0)%N then acc
      else digits_256 fuel' (n / 256) (default x00 (Byte.of_N (n mod 256)) :: acc)
  end.

#[export] Instance coercions : Coercions := {|
  int_to_big_endian := fun n =>
    if (n =? 0)%N then [x00] else digits_256 (N.to_nat (N.size n)) n [];
  force_bytes_to_address := fun b =>
    replicate (20 - length b) x00 ++ drop (length b - 20) b
|}.

#[export] Instance chain_access : ChainAccess := {|
  header_hash := fun h => parent_hash h ++ state_root h;
  get_block_header_by_hash := fun _ _ => Raise KeyError
|}.

Definition empty_store : Store := fun _ _ => None.

Definition genesis_header : BlockHeader :=
  {| state_root := [x2a]; parent_hash := []; block_number := 7; coinbase := [] |}.

Definition genesis_vm : VM :=
  {| vm_db := empty_store; block := {| header := genesis_header |} |}.

Definition empty_message (data : bytes) : Message :=
  {| msg_origin := []; msg_sender := []; msg_storage_address := [];
     msg_value := 0; msg_gas_price := 0; msg_data := data |}.

(** A computation over [genesis_vm]. *)
Definition computation (s : Stack) (m : Memory) (gas : N) (data code_ : bytes)
  : Computation :=
  {| stack := s; memory := m;
     gas_meter := {| gas_remaining := gas; gas_refunded := 0 |};
     msg := empty_message data;
     code := {| code_bytes := code_; pc := 0 |};
     vm := genesis_vm |}.

(** A body that moves the state to another root and completes. *)
Definition rerooting_body : State -> VM -> State * VM * Result unit :=
  fun st v => ({| view_store := view_store st; view_root := [x01] |}, v, Ok tt).

(** A body that moves the state to another root and then raises. *)
Definition failing_body : State -> VM -> State * VM * Result unit :=
  fun st v => ({| view_store := view_store st; view_root := [x01] |}, v,
               Raise (OtherError 0)).

(** An account is absent when the store has no entry for it. *)
Definition absent (st : State) (a : Address) : Prop := account st a = None.

(** A body that moves the state and the header to the same other root. *)
Definition moving_body : State -> VM -> State * VM * Result unit :=
  fun st v => ({| view_store := view_store st; view_root := [x01] |},
               set_state_root [x01] v, Ok tt).

(** A body that leaves the state alone and writes another root into the
    header, as a mutable scope opened inside it would. *)
Definition header_body : State -> VM -> State * VM * Result unit :=
  fun st v => (st, set_state_root [x01] v, Ok tt).

(** A store with one account under the root 0x2a: the address 0x00..05,
    with a balance of 77 and two bytes of code. *)
Definition funded_address : Address := replicate 19 x00 ++ [x05].

Definition funded_store : Store :=
  fun root a =>
    if decide (root = [x2a] /\ a = funded_address)
    then Some {| account_balance := 77; account_code := [x60; x00] |}
    else None.

Definition funded_vm : VM :=
  {| vm_db := funded_store; block := {| header := genesis_header |} |}.

(** A computation over [funded_vm]. *)
Definition funded_computation (s : Stack) : Computation :=
  {| stack := s; memory := [];
     gas_meter := {| gas_remaining := 0; gas_refunded := 0 |};
     msg := empty_message [];
     code := {| code_bytes := []; pc := 0 |};
     vm := funded_vm |}.

End InMemory.

(** ** Specification-side notions *)

(** "ceil(a/b)", as the spec writes the word count. *)
Definition ceil_div (a b : N) : N := ((a + b - 1) / b)%N.

(** What [extend_memory] consumes for growing the memory [m] to cover
    [start_position + size]. *)
Definition expansion_fee `{GS : GasSchedule} (m : Memory) (start_position size : N) : N :=
  (memory_gas_cost (ceil32 (start_position + size))
   - memory_gas_cost (ceil32 (N.of_nat (length m))))%N.

(** The memory after a copy of [chunk] to [start_position]: the extended
    memory with the padded chunk written over its region. *)
Definition copied (start_position size : N) (chunk : bytes) (m : Memory) : Memory :=
  let m' := memory_extend start_position size m in
  take (N.to_nat start_position) m' ++ pad_right chunk size x00
    ++ drop (N.to_nat (start_position + size)) m'.

(** The bytes of the written region [start_position .. start_position +
    size) of [mem] against the source: a position whose source index is
    in range holds the source byte, a position whose source index is at
    or past the end of the source holds zero. *)
Definition region_copied (src : bytes) (src_start start_position size : N)
    (mem : Memory) : Prop :=
  (forall j b, j < N.to_nat size ->
     src !! (N.to_nat src_start + j) = Some b ->
     mem !! (N.to_nat start_position + j) = Some b)
  /\ (forall j, j < N.to_nat size ->
        length src <= N.to_nat src_start + j ->
        mem !! (N.to_nat start_position + j) = Some x00).

Section Notions.
Context `{SA : StateAccess} `{GS : GasSchedule} `{CO : Coercions}.

(** The computation after [amount] gas has been consumed. *)
Definition charged (amount : N) (c : Computation) : Computation :=
  set_gas_meter {| gas_remaining := gas_remaining (gas_meter c) - amount;
                   gas_refunded := gas_refunded (gas_meter c) |} c.

(** The computation after its memory has been extended. *)
Definition extended (start_position size : N) (c : Computation) : Computation :=
  set_memory (memory_extend start_position size (memory c)) c.

(** What the three copy opcodes do after popping their arguments. *)
Definition copy_steps (start_position size word_fee : N) (fetch : M bytes) : M unit :=
  extend_memory start_position size ;;;
  consume_gas word_fee ;;;
  chunk <~ fetch ;;
  lift_memory (memory_write start_position size (pad_right chunk size x00)).

(** The state that an opcode opens on the VM of its computation. *)
Definition state_of (c : Computation) : State :=
  new_state (vm_db (vm c)) (state_root (header (block (vm c)))).

(** The 32-byte window of the call data that CALLDATALOAD reads at [o]. *)
Definition calldata_window (c : Computation) (o : N) : bytes :=
  slice (msg_data (msg c)) o (o + 32).

End Notions.

(** ** The rest of the VM driver (base.py) *)


(** [State.snapshot] and [State.revert] of the state-access interface
    (spec 6); calling [snapshot] may change the state object. *)
Class SnapshotAccess `{StateAccess} : Type := {
  Snapshot : Type;
  state_snapshot : State -> State * Snapshot;
  state_revert : State -> Snapshot -> State
}.

(** What [mine_block] uses and the sources do not contain: the reward
    constants of [evm.constants], [State.delta_balance] of the
    state-access interface, and the block's own [mine] method, which works
    on the block in place and may raise. *)
Class MiningAccess `{StateAccess} : Type := {
  BLOCK_REWARD : Z;
  NEPHEW_REWARD : Z;
  UNCLE_DEPTH_PENALTY_FACTOR : Z;
  delta_balance : State -> Address -> Z -> State;
  block_mine : Block -> Block * Result unit
}.

Section Snapshots.
Context `{SN : SnapshotAccess}.

(** [VM.snapshot]: the [return] inside the [with] leaves the scope
    normally, so the read-only check runs before the value is returned. *)
Definition snapshot (self : VM) : VM * Result Snapshot :=
  state_db true
    (fun state_db v =>
       let '(state_db', s) := state_snapshot state_db in (state_db', v, Ok s))
    self.

(** [VM.revert] *)
Definition revert (snapshot : Snapshot) (self : VM) : VM * Result unit :=
  state_db false
    (fun state_db v => (state_revert state_db snapshot, v, Ok tt))
    self.

End Snapshots.

Section Mining.
Context `{MA : MiningAccess}.

(** [self.block = b] *)
Definition set_block (b : Block) (v : VM) : VM :=
  {| vm_db := vm_db v; block := b |}.

Definition get_block_reward (block_number : Z) : Z := BLOCK_REWARD.

Definition get_nephew_reward (block_number : Z) : Z := NEPHEW_REWARD.

(** The reward of one uncle inside [mine_block]; [//] is the floor
    division, as [Z.div] is. *)
Definition uncle_reward (uncle_block_number block_number : Z) : Z :=
  (BLOCK_REWARD * (UNCLE_DEPTH_PENALTY_FACTOR + uncle_block_number - block_number)
   / UNCLE_DEPTH_PENALTY_FACTOR)%Z.

(** The body of the [with] of [mine_block]: the block reward to the
    coinbase, then one reward per uncle in the order of the list. *)
Definition pay_rewards (b : Block) (uncles : list BlockHeader) (block_reward : Z)
    (state_db : State) : State :=
  fold_left
    (fun st uncle =>
       delta_balance st (coinbase uncle) (uncle_reward (block_number uncle) (number b)))
    uncles
    (delta_balance state_db (coinbase (header b)) block_reward).

(** [VM.mine_block].  The block record holds the header only: the
    uncles of the block, [block.uncles], are passed beside it.  The
    returned block is the VM's block object, so it shows the state root
    written when the scope is left. *)
Definition mine_block (uncles : list BlockHeader) (self : VM) : VM * Result Block :=
  let '(mined, r) := block_mine (block self) in
  let self1 := set_block mined self in
  match r with
  | Raise e => (self1, Raise e)
  | Ok _ =>
      if (number mined =? 0)%Z then (self1, Ok mined)
      else
        let block_reward :=
          (get_block_reward (number mined)
           + Z.of_nat (length uncles) * get_nephew_reward (number mined))%Z in
        match state_db false
                (fun state_db v => (pay_rewards mined uncles block_reward state_db, v, Ok tt))
                self1 with
        | (self2, Ok _) => (self2, Ok (block self2))
        | (self2, Raise e) => (self2, Raise e)
        end
  end.

End Mining.

(** ** [VM.configure]: a class as its name and its attributes *)

Section Classes.
Context {V : Type}.

(** A class is its [__name__] and the attributes that [hasattr] finds on
    it, inherited ones included. *)
Record VMClass : Type := {
  class_name : string;
  class_attrs : gmap string V
}.

(** The [for key in overrides] loop of [configure]. *)
Fixpoint check_overrides (keys : list string) (cls : VMClass) : Result unit :=
  match keys with
  | [] => Ok tt
  | key :: keys' =>
      match class_attrs cls !! key with
      | None => Raise TypeError
      | Some _ => check_overrides keys' cls
      end
  end.

(** [VM.configure(name, **overrides)].  [type(name, (cls,), overrides)]
    is a class named [name] on which an attribute is found in [overrides]
    first and on [cls] otherwise. *)
Definition configure (cls : VMClass) (name : option string) (overrides : gmap string V)
  : Result VMClass :=
  let name := match name with None => class_name cls | Some n => n end in
  match check_overrides (map_to_list overrides).*1 cls with
  | Raise e => Raise e
  | Ok _ => Ok {| class_name := name; class_attrs := overrides ∪ class_attrs cls |}
  end.

End Classes.
Arguments VMClass V : clear implicits.

(** ** Chains of headers, for [get_ancestor_hash] *)

Section Chains.
Context `{CA : ChainAccess}.

(** [linked db h k a]: following the parent hashes from [h] through the
    header store [k] times leads to [a], every step going down by one
    block number. *)
Inductive linked (db : DB) : BlockHeader -> nat -> BlockHeader -> Prop :=
| linked_here h : linked db h 0 h
| linked_step h h' k a :
    get_block_header_by_hash db (parent_hash h) = Ok h' ->
    block_number h' = (block_number h - 1)%Z ->
    linked db h' k a ->
    linked db h (S k) a.

End Chains.

(** ** The environment opcodes as a table *)

Section OpcodeList.
Context `{SA : StateAccess} `{GS : GasSchedule} `{CO : Coercions}.

(** All the opcodes of context.py. *)
Definition context_opcodes : list (M unit) :=
  [balance; origin; address; caller; callvalue; calldataload; calldatasize;
   calldatacopy; codesize; codecopy; gasprice; extcodesize; extcodecopy].

End OpcodeList.

(** ** Relations between the computation before and after an opcode *)

Section Relations.
Context `{SA : StateAccess} `{GS : GasSchedule} `{CO : Coercions}.

(** [m] relates every starting computation to the computation it ends
    with, whether it returns or raises. *)
Definition respects {A} (R : Computation -> Computation -> Prop) (m : M A) : Prop :=
  forall c c' r, m c = (c', r) -> R c c'.

(** The opcodes that copy nothing and the three that copy. *)
Definition plain_opcodes : list (M unit) :=
  [balance; origin; address; caller; callvalue; calldataload; calldatasize;
   codesize; gasprice; extcodesize].

Definition copy_opcodes : list (M unit) := [calldatacopy; codecopy; extcodecopy].

(** The message, the VM and the code stream are the same. *)
Definition same_surroundings (c c' : Computation) : Prop :=
  msg c' = msg c /\ vm c' = vm c /\ code c' = code c.

(** No gas has been given back and the refund counter is the same. *)
Definition gas_not_more (c c' : Computation) : Prop :=
  (gas_remaining (gas_meter c') <= gas_remaining (gas_meter c))%N
  /\ gas_refunded (gas_meter c') = gas_refunded (gas_meter c).

(** The stack stays within its depth limit. *)
Definition depth_kept (c c' : Computation) : Prop :=
  length (stack c) <= STACK_DEPTH_LIMIT -> length (stack c') <= STACK_DEPTH_LIMIT.

(** The memory has not become shorter. *)
Definition memory_not_shorter (c c' : Computation) : Prop :=
  length (memory c) <= length (memory c').

(** Neither the memory nor the gas meter has changed. *)
Definition memory_and_gas_same (c c' : Computation) : Prop :=
  memory c' = memory c /\ gas_meter c' = gas_meter c.

End Relations.

(** The bytes of [mem'] outside the region [start_position ..
    start_position + size) are those of [mem], and zero past its end. *)
Definition outside_kept (start_position size : N) (mem mem' : Memory) : Prop :=
  forall i, i < N.to_nat start_position \/ N.to_nat (start_position + size) <= i ->
    (i < length mem -> mem' !! i = mem !! i)
    /\ (length mem <= i < length mem' -> mem' !! i = Some x00).

Section FailureRelations.
Context `{SA : StateAccess} `{GS : GasSchedule} `{CO : Coercions}.

(** The former memory is the beginning of the memory afterwards. *)
Definition contents_kept (c c' : Computation) : Prop :=
  take (length (memory c)) (memory c') = memory c.

(** [m] relates the starting computation to the one it ends with when it
    raises. *)
Definition respects_raising {A} (R : Computation -> Computation -> Prop) (m : M A) : Prop :=
  forall c c' e, m c = (c', Raise e) -> R c c'.

(** CALLDATASIZE followed by CALLDATALOAD. *)
Definition load_at_calldatasize : M unit := calldatasize ;;; calldataload.

End FailureRelations.

(** ** A second in-memory instance, for the driver *)

Module InMemoryDriver.
Import InMemory.

(** A snapshot is the root at which it was taken; reverting goes back to
    that root. *)
#[export] Instance snapshot_access : SnapshotAccess := {|
  Snapshot := Hash;
  state_snapshot := fun st => (st, view_root st);
  state_revert := fun st s => {| view_store := view_store st; view_root := s |}
|}.

(** A block reward of 5000, a nephew reward of 156 and a penalty factor
    of 8; a balance change moves the state to the root extended by the
    address and the low byte of the amount, so that the root tells who
    was paid what, in which order. *)
#[export] Instance mining_access : MiningAccess := {|
  BLOCK_REWARD := 5000;
  NEPHEW_REWARD := 156;
  UNCLE_DEPTH_PENALTY_FACTOR := 8;
  delta_balance := fun st a amount =>
    {| view_store := view_store st;
       view_root := view_root st ++ a
                      ++ [default x00 (Byte.of_N (Z.to_N (amount mod 256)))] |};
  block_mine := fun b => (b, Ok tt)
|}.

(** A store with three headers, numbered 6, 5 and 4, found under the
    hashes 0x06, 0x05 and 0x04. *)
Definition header_at (n : Z) (parent : Hash) : BlockHeader :=
  {| state_root := []; parent_hash := parent; block_number := n; coinbase := [] |}.

#[export] Instance linked_chain : ChainAccess := {|
  header_hash := fun h => parent_hash h ++ state_root h;
  get_block_header_by_hash := fun _ h =>
    if decide (h = [x06]) then Ok (header_at 6 [x05])
    else if decide (h = [x05]) then Ok (header_at 5 [x04])
    else if decide (h = [x04]) then Ok (header_at 4 [x03])
    else Raise KeyError
|}.

(** An uncle with number 6 and the coinbase 0xd0. *)
Definition uncle_6 : BlockHeader :=
  {| state_root := []; parent_hash := [x04]; block_number := 6; coinbase := [xd0] |}.

(** A VM whose block has number 7 and the parent 0x06. *)
Definition tip_vm : VM :=
  {| vm_db := empty_store;
     block := {| header := {| state_root := [x2a]; parent_hash := [x06];
                              block_number := 7; coinbase := [xc0] |} |} |}.

End InMemoryDriver.

(** * Properties *)

(** ** Arithmetic of word counts *)

Lemma ceil32_bounds (n : N) : (n <= ceil32 n < n + 32)%N.
Proof.
  unfold ceil32. cbv zeta.
  pose proof (N.mod_upper_bound n 32 ltac:(lia)) as Hlt.
  destruct (N.eqb_spec (n mod 32) 0); [lia|].
  set (r := (n mod 32)%N) in *. clearbody r. lia.
Qed.

Lemma ceil32_multiple (n : N) : (ceil32 n mod 32 = 0)%N.
Proof.
  unfold ceil32. cbv zeta.
  destruct (N.eqb_spec (n mod 32) 0) as [E|E]; [exact E|].
  pose proof (N.mod_upper_bound n 32 ltac:(lia)) as Hlt.
  pose proof (N.div_mod n 32 ltac:(lia)) as Hdm.
  set (r := (n mod 32)%N) in *. set (q := (n / 32)%N) in *. clearbody r q.
  replace (n + 32 - r)%N with ((q + 1) * 32)%N by lia.
  apply N.Div0.mod_mul.
Qed.

Lemma ceil_div_32_bounds (n : N) : (n <= 32 * ceil_div n 32 < n + 32)%N.
Proof.
  unfold ceil_div.
  pose proof (N.div_mod (n + 32 - 1) 32 ltac:(lia)) as Hdm.
  pose proof (N.mod_upper_bound (n + 32 - 1) 32 ltac:(lia)) as Hlt.
  set (r := ((n + 32 - 1) mod 32)%N) in *.
  set (q := ((n + 32 - 1) / 32)%N) in *. clearbody r q. lia.
Qed.

Lemma word_count_ceil_div (size : N) : (ceil32 size / 32 = ceil_div size 32)%N.
Proof.
  pose proof (ceil32_bounds size) as Hb.
  pose proof (ceil32_multiple size) as Hm.
  pose proof (N.div_mod (ceil32 size) 32 ltac:(lia)) as Hdm.
  pose proof (ceil_div_32_bounds size) as Hc.
  rewrite Hm in Hdm.
  set (q := (ceil32 size / 32)%N) in *. set (w := ceil_div size 32) in *.
  clearbody q w. lia.
Qed.

(** ** Byte strings *)

Lemma length_slice (b : bytes) (start size : N) :
  length (slice b start (start + size)) = Nat.min (N.to_nat size) (length b - N.to_nat start).
Proof. unfold slice. rewrite length_take, length_drop. lia. Qed.

Lemma lookup_slice (b : bytes) (start size : N) (j : nat) :
  j < N.to_nat size ->
  slice b start (start + size) !! j = b !! (N.to_nat start + j).
Proof.
  intros Hj. unfold slice.
  rewrite lookup_take_lt by lia. apply lookup_drop.
Qed.

Lemma length_pad_right (value : bytes) (to_size : N) (c : byte) :
  length value <= N.to_nat to_size ->
  length (pad_right value to_size c) = N.to_nat to_size.
Proof.
  intros Hle. unfold pad_right.
  destruct (Z.ltb_spec 0 (Z.of_N to_size - Z.of_nat (length value))).
  - rewrite length_app, length_replicate. lia.
  - lia.
Qed.

Lemma lookup_pad_right (value : bytes) (to_size : N) (c : byte) (j : nat) :
  j < N.to_nat to_size ->
  pad_right value to_size c !! j = Some (default c (value !! j)).
Proof.
  intros Hj. unfold pad_right.
  destruct (Z.ltb_spec 0 (Z.of_N to_size - Z.of_nat (length value))).
  - destruct (decide (j < length value)) as [Hin|Hout].
    + rewrite lookup_app_l by lia.
      destruct (lookup_lt_is_Some_2 value j Hin) as [x Hx]. by rewrite Hx.
    + rewrite lookup_app_r by lia.
      rewrite (lookup_ge_None_2 value j) by lia. simpl.
      apply lookup_replicate_2. lia.
  - destruct (lookup_lt_is_Some_2 value j ltac:(lia)) as [x Hx]. by rewrite Hx.
Qed.

Lemma pad_right_slice_lookup (src : bytes) (start size : N) (j : nat) :
  j < N.to_nat size ->
  pad_right (slice src start (start + size)) size x00 !! j
  = Some (default x00 (src !! (N.to_nat start + j))).
Proof.
  intros Hj. rewrite lookup_pad_right by lia. by rewrite lookup_slice by lia.
Qed.

Lemma big_endian_to_int_lstrip (b : bytes) :
  big_endian_to_int (lstrip b x00) = big_endian_to_int b.
Proof.
  unfold big_endian_to_int.
  induction b as [|x rest IH]; [reflexivity|].
  simpl. destruct (decide (x = x00)) as [->|Hne]; [|reflexivity].
  exact IH.
Qed.

Lemma big_endian_to_int_zeros (k : nat) :
  big_endian_to_int (replicate k x00) = 0%N.
Proof.
  unfold big_endian_to_int.
  induction k as [|k IH]; [reflexivity|]. exact IH.
Qed.

(** ** Memory *)

Lemma length_memory_extend (start_position size : N) (m : Memory) :
  N.to_nat (start_position + size) <= length (memory_extend start_position size m).
Proof.
  unfold memory_extend.
  destruct (N.ltb_spec (N.of_nat (length m)) (start_position + size)).
  - rewrite length_app, length_replicate.
    pose proof (ceil32_bounds (start_position + size)). lia.
  - lia.
Qed.

Lemma memory_extend_prefix (start_position size : N) (m : Memory) :
  take (length m) (memory_extend start_position size m) = m.
Proof.
  unfold memory_extend.
  destruct (N.ltb_spec (N.of_nat (length m)) (start_position + size)).
  - by rewrite take_app_length.
  - by rewrite take_ge.
Qed.

Lemma memory_extend_grows (start_position size : N) (m : Memory) :
  length m <= length (memory_extend start_position size m).
Proof.
  unfold memory_extend.
  destruct (N.ltb_spec (N.of_nat (length m)) (start_position + size)).
  - rewrite length_app. lia.
  - lia.
Qed.

Lemma memory_extend_fill (start_position size : N) (m : Memory) (i : nat) :
  length m <= i < length (memory_extend start_position size m) ->
  memory_extend start_position size m !! i = Some x00.
Proof.
  unfold memory_extend.
  destruct (N.ltb_spec (N.of_nat (length m)) (start_position + size)).
  - rewrite length_app, length_replicate. intros Hi.
    rewrite lookup_app_r by lia. apply lookup_replicate_2. lia.
  - lia.
Qed.

Lemma memory_write_extended (start_position size : N) (chunk : bytes) (m : Memory) :
  length chunk <= N.to_nat size ->
  memory_write start_position size (pad_right chunk size x00)
               (memory_extend start_position size m)
  = (copied start_position size chunk m, Ok tt).
Proof.
  intros Hle. unfold memory_write.
  rewrite length_pad_right by done.
  rewrite N2Nat.id, N.eqb_refl. simpl.
  pose proof (length_memory_extend start_position size m).
  destruct (N.ltb_spec (N.of_nat (length (memory_extend start_position size m)))
                       (start_position + size)); [lia|].
  reflexivity.
Qed.

Lemma lookup_copied (start_position size : N) (chunk : bytes) (m : Memory) (j : nat) :
  length chunk <= N.to_nat size ->
  j < N.to_nat size ->
  copied start_position size chunk m !! (N.to_nat start_position + j)
  = Some (default x00 (chunk !! j)).
Proof.
  intros Hle Hj. unfold copied.
  pose proof (length_memory_extend start_position size m).
  rewrite lookup_app_r by (rewrite length_take; lia).
  rewrite length_take.
  replace (N.to_nat start_position + j
           - Nat.min (N.to_nat start_position)
               (length (memory_extend start_position size m))) with j by lia.
  rewrite lookup_app_l by (rewrite length_pad_right; lia).
  by apply lookup_pad_right.
Qed.

Lemma length_copied (start_position size : N) (chunk : bytes) (m : Memory) :
  length chunk <= N.to_nat size ->
  length (copied start_position size chunk m)
  = length (memory_extend start_position size m).
Proof.
  intros Hle. unfold copied.
  pose proof (length_memory_extend start_position size m).
  rewrite !length_app, length_take, length_drop, length_pad_right by done. lia.
Qed.

(** ** Running the pieces of an opcode *)

Section Running.
Context `{SA : StateAccess} `{GS : GasSchedule} `{CO : Coercions}.

Lemma consume_gas_ok (amount : N) (c : Computation) :
  (amount <= gas_remaining (gas_meter c))%N ->
  consume_gas amount c = (charged amount c, Ok tt).
Proof.
  intros Hle. unfold consume_gas, lift_gas, meter_consume_gas.
  destruct (N.ltb_spec (gas_remaining (gas_meter c)) amount); [lia|reflexivity].
Qed.

Lemma consume_gas_fails (amount : N) (c : Computation) :
  (gas_remaining (gas_meter c) < amount)%N ->
  consume_gas amount c = (c, Raise OutOfGas).
Proof.
  intros Hlt. unfold consume_gas, lift_gas, meter_consume_gas.
  destruct (N.ltb_spec (gas_remaining (gas_meter c)) amount); [|lia].
  by destruct c.
Qed.

Lemma extend_memory_ok (start_position size : N) (c : Computation) :
  (expansion_fee (memory c) start_position size <= gas_remaining (gas_meter c))%N ->
  extend_memory start_position size c
  = (extended start_position size
       (charged (expansion_fee (memory c) start_position size) c), Ok tt).
Proof.
  unfold expansion_fee. intros Hle. unfold extend_memory. cbv zeta.
  destruct (N.ltb_spec (memory_gas_cost (ceil32 (N.of_nat (length (memory c)))))
                       (memory_gas_cost (ceil32 (start_position + size)))) as [Hlt|Hge].
  - unfold bind. rewrite consume_gas_ok by exact Hle. reflexivity.
  - replace (memory_gas_cost (ceil32 (start_position + size))
             - memory_gas_cost (ceil32 (N.of_nat (length (memory c)))))%N
      with 0%N by lia.
    destruct c as [s m [g rf] ms cd v]. unfold bind, ret, lift_memory, extended, charged.
    simpl. by rewrite N.sub_0_r.
Qed.

Lemma extend_memory_fails (start_position size : N) (c : Computation) :
  (gas_remaining (gas_meter c) < expansion_fee (memory c) start_position size)%N ->
  extend_memory start_position size c = (c, Raise OutOfGas).
Proof.
  unfold expansion_fee. intros Hlt. unfold extend_memory. cbv zeta.
  destruct (N.ltb_spec (memory_gas_cost (ceil32 (N.of_nat (length (memory c)))))
                       (memory_gas_cost (ceil32 (start_position + size)))) as [Hc|Hc];
    [|lia].
  unfold bind. by rewrite consume_gas_fails by exact Hlt.
Qed.

Lemma pop3_uint256_run (c : Computation) (v1 v2 v3 : StackItem) (rest : Stack) :
  stack c = v1 :: v2 :: v3 :: rest ->
  pop3_uint256 c
  = (set_stack rest c, Ok (item_to_uint256 v1, item_to_uint256 v2, item_to_uint256 v3)).
Proof.
  intros Hs. unfold pop3_uint256, bind, lift_stack, stack_pop. rewrite Hs. reflexivity.
Qed.

Lemma pop_bytes_run (c : Computation) (v : StackItem) (rest : Stack) :
  stack c = v :: rest ->
  pop_bytes c = (set_stack rest c, Ok (item_to_bytes v)).
Proof.
  intros Hs. unfold pop_bytes, bind, lift_stack, stack_pop. rewrite Hs. reflexivity.
Qed.

Lemma pop_uint256_run (c : Computation) (v : StackItem) (rest : Stack) :
  stack c = v :: rest ->
  pop_uint256 c = (set_stack rest c, Ok (item_to_uint256 v)).
Proof.
  intros Hs. unfold pop_uint256, bind, lift_stack, stack_pop. rewrite Hs. reflexivity.
Qed.

Lemma push_run (c : Computation) (v : StackItem) :
  length (stack c) < STACK_DEPTH_LIMIT ->
  push v c = (set_stack (v :: stack c) c, Ok tt).
Proof.
  intros Hlt. unfold push, lift_stack, stack_push.
  destruct (Nat.leb_spec STACK_DEPTH_LIMIT (length (stack c))); [lia|reflexivity].
Qed.

(** The scoped read of the code stream leaves the computation as it was. *)
Lemma seek_read_run (c : Computation) (position size : N) :
  lift_code (code_seek position (code_read size)) c
  = (c, Ok (slice (code_bytes (code c)) position (position + size))).
Proof. by destruct c as [s m g ms [cb p] v]. Qed.

(** A read-only scope whose body only reads the state passes its check. *)
Lemma state_db_reading {A} (f : State -> A) (v : VM) :
  state_db true (reading f) v
  = (v, Ok (f (new_state (vm_db v) (state_root (header (block v)))))).
Proof.
  unfold state_db, reading, state_db_release.
  rewrite root_hash_new_state.
  by destruct (decide (state_root (header (block v)) = state_root (header (block v)))).
Qed.

Lemma lift_state_db_reading {A} (f : State -> A) (c : Computation) :
  lift_vm (state_db true (reading f)) c
  = (c, Ok (f (new_state (vm_db (vm c)) (state_root (header (block (vm c))))))).
Proof. unfold lift_vm. rewrite state_db_reading. by destruct c. Qed.

(** The three outcomes of [copy_steps]. *)
Lemma copy_steps_ok (start_position size word_fee : N) (fetch : M bytes)
    (chunk : bytes) (c : Computation) :
  let fee := expansion_fee (memory c) start_position size in
  let c2 := charged word_fee (extended start_position size (charged fee c)) in
  (fee + word_fee <= gas_remaining (gas_meter c))%N ->
  fetch c2 = (c2, Ok chunk) ->
  length chunk <= N.to_nat size ->
  copy_steps start_position size word_fee fetch c
  = (set_memory (copied start_position size chunk (memory c)) c2, Ok tt).
Proof.
  intros fee c2 Hgas Hfetch Hlen. unfold copy_steps, bind.
  rewrite extend_memory_ok by (fold fee; lia). fold fee.
  rewrite consume_gas_ok by (simpl; lia). fold c2.
  rewrite Hfetch. unfold lift_memory.
  change (memory c2) with (memory_extend start_position size (memory c)).
  by rewrite memory_write_extended.
Qed.

Lemma copy_steps_word_fee_fails (start_position size word_fee : N) (fetch : M bytes)
    (c : Computation) :
  let fee := expansion_fee (memory c) start_position size in
  (fee <= gas_remaining (gas_meter c))%N ->
  (gas_remaining (gas_meter c) - fee < word_fee)%N ->
  copy_steps start_position size word_fee fetch c
  = (extended start_position size (charged fee c), Raise OutOfGas).
Proof.
  intros fee Hfee Hword. unfold copy_steps, bind.
  rewrite extend_memory_ok by (fold fee; lia). fold fee.
  by rewrite consume_gas_fails by (simpl; lia).
Qed.

Lemma copy_steps_expansion_fails (start_position size word_fee : N) (fetch : M bytes)
    (c : Computation) :
  (gas_remaining (gas_meter c) < expansion_fee (memory c) start_position size)%N ->
  copy_steps start_position size word_fee fetch c = (c, Raise OutOfGas).
Proof.
  intros Hlt. unfold copy_steps, bind. by rewrite extend_memory_fails.
Qed.

(** The opcodes, as a pop followed by [copy_steps]. *)
Lemma calldatacopy_steps (c : Computation) :
  calldatacopy c
  = (args <~ pop3_uint256 ;;
     let '(mem_start_position, calldata_start_position, size) := args in
     copy_steps mem_start_position size (ceil32 size / 32 * GAS_COPY)
       (fun c' => (c', Ok (slice (msg_data (msg c')) calldata_start_position
                                 (calldata_start_position + size))))) c.
Proof.
  unfold calldatacopy, copy_steps, bind.
  destruct (pop3_uint256 c) as [c1 [[[m s] n]|e]]; [|reflexivity].
  destruct (extend_memory m n c1) as [c2 [[]|e]]; [|reflexivity].
  by destruct (consume_gas (ceil32 n / 32 * GAS_COPY) c2) as [c3 [[]|e]].
Qed.

Lemma codecopy_steps (c : Computation) :
  codecopy c
  = (args <~ pop3_uint256 ;;
     let '(mem_start_position, code_start_position, size) := args in
     copy_steps mem_start_position size (GAS_COPY * (ceil32 size / 32))
       (lift_code (code_seek code_start_position (code_read size)))) c.
Proof.
  unfold codecopy, copy_steps, bind.
  by destruct (pop3_uint256 c) as [c1 [[[m s] n]|e]].
Qed.

Lemma extcodecopy_steps (c : Computation) :
  extcodecopy c
  = (raw <~ pop_bytes ;;
     let account := force_bytes_to_address raw in
     args <~ pop3_uint256 ;;
     let '(mem_start_position, code_start_position, size) := args in
     copy_steps mem_start_position size (GAS_COPY * (ceil32 size / 32))
       (code <~ lift_vm (state_db true (reading (fun state_db =>
                  get_code state_db account))) ;;
        ret (slice code code_start_position (code_start_position + size)))) c.
Proof.
  unfold extcodecopy, copy_steps, bind.
  destruct (pop_bytes c) as [c0 [raw|e]]; [|reflexivity].
  destruct (pop3_uint256 c0) as [c1 [[[m s] n]|e]]; [|reflexivity].
  destruct (extend_memory m n c1) as [c2 [[]|e]]; [|reflexivity].
  destruct (consume_gas (GAS_COPY * (ceil32 n / 32)) c2) as [c3 [[]|e]]; [|reflexivity].
  by destruct (lift_vm _ c3) as [c4 [cd|e]].
Qed.

End Running.

(** ** The copy opcodes *)

Section CopyOpcodes.
Context `{SA : StateAccess} `{GS : GasSchedule} `{CO : Coercions}.

Lemma calldatacopy_word_fee_fails (c : Computation) (v1 v2 v3 : StackItem) (rest : Stack) :
  let m := item_to_uint256 v1 in
  let n := item_to_uint256 v3 in
  let fee := expansion_fee (memory c) m n in
  (fee <= gas_remaining (gas_meter c))%N ->
  (gas_remaining (gas_meter c) - fee < ceil_div n 32 * GAS_COPY)%N ->
  calldatacopy (set_stack (v1 :: v2 :: v3 :: rest) c)
  = (extended m n (charged fee (set_stack rest c)), Raise OutOfGas).
Proof.
  intros m n fee Hfee Hword.
  rewrite calldatacopy_steps. unfold bind at 1.
  rewrite (pop3_uint256_run _ v1 v2 v3 rest) by reflexivity.
  rewrite word_count_ceil_div.
  exact (copy_steps_word_fee_fails m n _ _ (set_stack rest c) Hfee Hword).
Qed.

Lemma codecopy_word_fee_fails (c : Computation) (v1 v2 v3 : StackItem) (rest : Stack) :
  let m := item_to_uint256 v1 in
  let n := item_to_uint256 v3 in
  let fee := expansion_fee (memory c) m n in
  (fee <= gas_remaining (gas_meter c))%N ->
  (gas_remaining (gas_meter c) - fee < ceil_div n 32 * GAS_COPY)%N ->
  codecopy (set_stack (v1 :: v2 :: v3 :: rest) c)
  = (extended m n (charged fee (set_stack rest c)), Raise OutOfGas).
Proof.
  intros m n fee Hfee Hword.
  rewrite codecopy_steps. unfold bind at 1.
  rewrite (pop3_uint256_run _ v1 v2 v3 rest) by reflexivity.
  rewrite word_count_ceil_div, N.mul_comm.
  exact (copy_steps_word_fee_fails m n _ _ (set_stack rest c) Hfee Hword).
Qed.

Lemma extcodecopy_word_fee_fails (c : Computation) (v0 v1 v2 v3 : StackItem)
    (rest : Stack) :
  let m := item_to_uint256 v1 in
  let n := item_to_uint256 v3 in
  let fee := expansion_fee (memory c) m n in
  (fee <= gas_remaining (gas_meter c))%N ->
  (gas_remaining (gas_meter c) - fee < ceil_div n 32 * GAS_COPY)%N ->
  extcodecopy (set_stack (v0 :: v1 :: v2 :: v3 :: rest) c)
  = (extended m n (charged fee (set_stack rest c)), Raise OutOfGas).
Proof.
  intros m n fee Hfee Hword.
  rewrite extcodecopy_steps. unfold bind at 1.
  rewrite (pop_bytes_run _ v0 (v1 :: v2 :: v3 :: rest)) by reflexivity.
  cbv zeta. unfold bind at 1.
  rewrite (pop3_uint256_run _ v1 v2 v3 rest) by reflexivity.
  rewrite word_count_ceil_div, N.mul_comm.
  exact (copy_steps_word_fee_fails m n _ _ (set_stack rest c) Hfee Hword).
Qed.

Lemma calldatacopy_ok (c : Computation) (v1 v2 v3 : StackItem) (rest : Stack) :
  let m := item_to_uint256 v1 in
  let s := item_to_uint256 v2 in
  let n := item_to_uint256 v3 in
  let fee := expansion_fee (memory c) m n in
  let word_fee := (ceil_div n 32 * GAS_COPY)%N in
  (fee + word_fee <= gas_remaining (gas_meter c))%N ->
  calldatacopy (set_stack (v1 :: v2 :: v3 :: rest) c)
  = (set_memory (copied m n (slice (msg_data (msg c)) s (s + n)) (memory c))
       (charged word_fee (extended m n (charged fee (set_stack rest c)))), Ok tt).
Proof.
  intros m s n fee word_fee Hgas.
  rewrite calldatacopy_steps. unfold bind at 1.
  rewrite (pop3_uint256_run _ v1 v2 v3 rest) by reflexivity.
  rewrite word_count_ceil_div.
  apply (copy_steps_ok m n word_fee _ _ (set_stack rest c)).
  - exact Hgas.
  - reflexivity.
  - rewrite length_slice. lia.
Qed.

Lemma codecopy_ok (c : Computation) (v1 v2 v3 : StackItem) (rest : Stack) :
  let m := item_to_uint256 v1 in
  let s := item_to_uint256 v2 in
  let n := item_to_uint256 v3 in
  let fee := expansion_fee (memory c) m n in
  let word_fee := (ceil_div n 32 * GAS_COPY)%N in
  (fee + word_fee <= gas_remaining (gas_meter c))%N ->
  codecopy (set_stack (v1 :: v2 :: v3 :: rest) c)
  = (set_memory (copied m n (slice (code_bytes (code c)) s (s + n)) (memory c))
       (charged word_fee (extended m n (charged fee (set_stack rest c)))), Ok tt).
Proof.
  intros m s n fee word_fee Hgas.
  rewrite codecopy_steps. unfold bind at 1.
  rewrite (pop3_uint256_run _ v1 v2 v3 rest) by reflexivity.
  rewrite word_count_ceil_div, N.mul_comm.
  apply (copy_steps_ok m n word_fee _ _ (set_stack rest c)).
  - exact Hgas.
  - by rewrite seek_read_run.
  - rewrite length_slice. lia.
Qed.

Lemma extcodecopy_ok (c : Computation) (v0 v1 v2 v3 : StackItem) (rest : Stack) :
  let account := force_bytes_to_address (item_to_bytes v0) in
  let m := item_to_uint256 v1 in
  let s := item_to_uint256 v2 in
  let n := item_to_uint256 v3 in
  let fee := expansion_fee (memory c) m n in
  let word_fee := (ceil_div n 32 * GAS_COPY)%N in
  (fee + word_fee <= gas_remaining (gas_meter c))%N ->
  extcodecopy (set_stack (v0 :: v1 :: v2 :: v3 :: rest) c)
  = (set_memory (copied m n (slice (get_code (state_of c) account) s (s + n)) (memory c))
       (charged word_fee (extended m n (charged fee (set_stack rest c)))), Ok tt).
Proof.
  intros account m s n fee word_fee Hgas.
  rewrite extcodecopy_steps. unfold bind at 1.
  rewrite (pop_bytes_run _ v0 (v1 :: v2 :: v3 :: rest)) by reflexivity.
  cbv zeta. unfold bind at 1.
  rewrite (pop3_uint256_run _ v1 v2 v3 rest) by reflexivity.
  rewrite word_count_ceil_div, N.mul_comm.
  apply (copy_steps_ok m n word_fee _ _ (set_stack rest c)).
  - exact Hgas.
  - unfold bind. by rewrite lift_state_db_reading.
  - rewrite length_slice. lia.
Qed.

End CopyOpcodes.

(** ** Properties of the copy opcodes *)

Lemma copied_region (src : bytes) (s m n : N) (mem : Memory) :
  region_copied src s m n (copied m n (slice src s (s + n)) mem).
Proof.
  assert (Hlen : length (slice src s (s + n)) <= N.to_nat n)
    by (rewrite length_slice; lia).
  split.
  - intros j b Hj Hb. rewrite lookup_copied by done.
    rewrite lookup_slice by done. by rewrite Hb.
  - intros j Hj Hout. rewrite lookup_copied by done.
    rewrite lookup_slice by done.
    by rewrite (lookup_ge_None_2 src) by lia.
Qed.

Section CopyProperties.
Context `{SA : StateAccess} `{GS : GasSchedule} `{CO : Coercions}.

(** C1 (as amended).  In CALLDATACOPY, CODECOPY and EXTCODECOPY the memory
    extension comes first and the word-count fee is charged after it,
    before the copy is written.  So when the word-count charge is the
    one that fails with OutOfGas (the expansion fee was affordable, the
    word-count fee is more than what is left), the opcode ends with the
    memory already extended: it covers memOffset+size, its former
    contents are its prefix and the added bytes are zero; nothing has
    been copied and the word-count fee has not been deducted. *)
Theorem copy_word_fee_charged_after_extension
    (c : Computation) (v0 v1 v2 v3 : StackItem) (rest : Stack) :
  let m := item_to_uint256 v1 in
  let n := item_to_uint256 v3 in
  let fee := expansion_fee (memory c) m n in
  let c' := extended m n (charged fee (set_stack rest c)) in
  (fee <= gas_remaining (gas_meter c))%N ->
  (gas_remaining (gas_meter c) - fee < ceil_div n 32 * GAS_COPY)%N ->
  (calldatacopy (set_stack (v1 :: v2 :: v3 :: rest) c) = (c', Raise OutOfGas)
   /\ codecopy (set_stack (v1 :: v2 :: v3 :: rest) c) = (c', Raise OutOfGas)
   /\ extcodecopy (set_stack (v0 :: v1 :: v2 :: v3 :: rest) c) = (c', Raise OutOfGas))
  /\ memory c' = memory_extend m n (memory c)
  /\ N.to_nat (m + n) <= length (memory c')
  /\ take (length (memory c)) (memory c') = memory c
  /\ (forall i, length (memory c) <= i < length (memory c') -> memory c' !! i = Some x00)
  /\ gas_remaining (gas_meter c') = (gas_remaining (gas_meter c) - fee)%N.
Proof.
  intros m n fee c' Hfee Hword. repeat split.
  - by apply calldatacopy_word_fee_fails.
  - by apply codecopy_word_fee_fails.
  - by apply extcodecopy_word_fee_fails.
  - apply length_memory_extend.
  - apply memory_extend_prefix.
  - intros i Hi. by apply memory_extend_fill.
Qed.

(** C4.  For CODECOPY, CALLDATACOPY and EXTCODECOPY with popped arguments
    (memOffset, srcOffset, size), whatever srcOffset is (in particular
    when srcOffset + size exceeds the length of the source): given the gas
    for the two fees, the opcode completes without error, and in the
    written region every position whose source index is in range holds
    the source byte and every position whose source index is at or past
    the end of the source holds zero. *)
Theorem copy_zero_fill
    (c : Computation) (v0 v1 v2 v3 : StackItem) (rest : Stack) :
  let account := force_bytes_to_address (item_to_bytes v0) in
  let m := item_to_uint256 v1 in
  let s := item_to_uint256 v2 in
  let n := item_to_uint256 v3 in
  (expansion_fee (memory c) m n + ceil_div n 32 * GAS_COPY
     <= gas_remaining (gas_meter c))%N ->
  (exists c', calldatacopy (set_stack (v1 :: v2 :: v3 :: rest) c) = (c', Ok tt)
              /\ region_copied (msg_data (msg c)) s m n (memory c'))
  /\ (exists c', codecopy (set_stack (v1 :: v2 :: v3 :: rest) c) = (c', Ok tt)
                 /\ region_copied (code_bytes (code c)) s m n (memory c'))
  /\ (exists c', extcodecopy (set_stack (v0 :: v1 :: v2 :: v3 :: rest) c) = (c', Ok tt)
                 /\ region_copied (get_code (state_of c) account) s m n (memory c')).
Proof.
  intros account m s n Hgas. repeat split.
  - eexists. split; [by apply calldatacopy_ok|]. apply copied_region.
  - eexists. split; [by apply codecopy_ok|]. apply copied_region.
  - eexists. split; [by apply extcodecopy_ok|]. apply copied_region.
Qed.

(** C5.  CALLDATACOPY and CODECOPY pop three items, the top being
    memOffset, the next srcOffset, the third size; they leave the memory
    covering memOffset+size, with the source bytes written at memOffset;
    and besides the memory-expansion fee they consume exactly
    ceil(size/32) * GAS_COPY gas, which for size 4 is 1 * GAS_COPY. *)
Theorem copy_pops_extends_charges
    (c : Computation) (v1 v2 v3 : StackItem) (rest : Stack) :
  let m := item_to_uint256 v1 in
  let s := item_to_uint256 v2 in
  let n := item_to_uint256 v3 in
  let fee := expansion_fee (memory c) m n in
  let after (src : bytes) (c' : Computation) :=
    stack c' = rest
    /\ N.to_nat (m + n) <= length (memory c')
    /\ memory c' = copied m n (slice src s (s + n)) (memory c)
    /\ gas_remaining (gas_meter c')
       = (gas_remaining (gas_meter c) - fee - ceil_div n 32 * GAS_COPY)%N
    /\ (n = 4%N ->
        gas_remaining (gas_meter c')
        = (gas_remaining (gas_meter c) - fee - 1 * GAS_COPY)%N) in
  (fee + ceil_div n 32 * GAS_COPY <= gas_remaining (gas_meter c))%N ->
  (exists c', calldatacopy (set_stack (v1 :: v2 :: v3 :: rest) c) = (c', Ok tt)
              /\ after (msg_data (msg c)) c')
  /\ (exists c', codecopy (set_stack (v1 :: v2 :: v3 :: rest) c) = (c', Ok tt)
                 /\ after (code_bytes (code c)) c').
Proof.
  intros m s n fee after Hgas.
  assert (Hafter : forall src,
    after src (set_memory (copied m n (slice src s (s + n)) (memory c))
                 (charged (ceil_div n 32 * GAS_COPY)
                    (extended m n (charged fee (set_stack rest c)))))).
  { intros src. unfold after. simpl. repeat split.
    - rewrite length_copied by (rewrite length_slice; lia).
      apply length_memory_extend.
    - intros ->. reflexivity. }
  split.
  - eexists. split; [by apply calldatacopy_ok|]. apply Hafter.
  - eexists. split; [by apply codecopy_ok|]. apply Hafter.
Qed.

End CopyProperties.

(** ** Properties of CALLDATALOAD, BALANCE and EXTCODESIZE *)

Section LoadProperties.
Context `{SA : StateAccess} `{GS : GasSchedule} `{CO : Coercions}.

Lemma calldataload_run (c : Computation) (v : StackItem) (rest : Stack) :
  length rest < STACK_DEPTH_LIMIT ->
  calldataload (set_stack (v :: rest) c)
  = (set_stack
       (BytesItem (lstrip (pad_right (calldata_window c (item_to_uint256 v)) 32 x00) x00)
          :: rest) c, Ok tt).
Proof.
  intros Hdepth. unfold calldataload, bind.
  rewrite (pop_uint256_run _ v rest) by reflexivity.
  by rewrite push_run by exact Hdepth.
Qed.

Lemma window_past_end (c : Computation) (o : N) :
  length (msg_data (msg c)) <= N.to_nat o ->
  calldata_window c o = [].
Proof.
  intros Hle. unfold calldata_window, slice.
  rewrite drop_ge by lia. apply take_nil.
Qed.

Lemma window_short (c : Computation) (o : N) :
  N.to_nat o < length (msg_data (msg c)) < N.to_nat o + 32 ->
  pad_right (calldata_window c o) 32 x00
  = drop (N.to_nat o) (msg_data (msg c))
      ++ replicate (32 - (length (msg_data (msg c)) - N.to_nat o)) x00.
Proof.
  intros Hin. unfold calldata_window, slice.
  rewrite take_ge by (rewrite length_drop; lia).
  unfold pad_right. rewrite length_drop.
  destruct (Z.ltb_spec 0 (Z.of_N 32
              - Z.of_nat (length (msg_data (msg c)) - N.to_nat o))); [|lia].
  f_equal. f_equal. lia.
Qed.

(** C2.  CALLDATALOAD with popped offset o on call data D pushes a word
    whose integer value is 0 when len(D) <= o, and, when
    o < len(D) < o+32, is the big-endian integer of D[o:] followed by
    zero bytes up to exactly 32 bytes. *)
Theorem calldataload_padding_laws (c : Computation) (v : StackItem) (rest : Stack) :
  let D := msg_data (msg c) in
  let o := N.to_nat (item_to_uint256 v) in
  length rest < STACK_DEPTH_LIMIT ->
  exists pushed,
    calldataload (set_stack (v :: rest) c) = (set_stack (pushed :: rest) c, Ok tt)
    /\ (length D <= o -> item_to_uint256 pushed = 0%N)
    /\ (o < length D < o + 32 ->
        item_to_uint256 pushed
        = big_endian_to_int (drop o D ++ replicate (32 - (length D - o)) x00)
        /\ length (drop o D ++ replicate (32 - (length D - o)) x00) = 32).
Proof.
  intros D o Hdepth. eexists. split; [by apply calldataload_run|].
  simpl. rewrite big_endian_to_int_lstrip. split.
  - intros Hle. rewrite window_past_end by exact Hle. reflexivity.
  - intros Hin. rewrite window_short by exact Hin. split; [reflexivity|].
    rewrite length_app, length_drop, length_replicate. fold D o. lia.
Qed.

(** C3 (as amended).  CALLDATALOAD pushes the 32-byte window padded with
    zero bytes on the right to 32 bytes and then stripped of its leading
    zero bytes; with popped offset 0 on the one-byte input 0x01 the pushed
    word is 0x01 followed by 31 zero bytes, the integer 2^248. *)
Theorem calldataload_right_padded (c : Computation) (v : StackItem) (rest : Stack) :
  let pushed :=
    BytesItem (lstrip (pad_right (calldata_window c (item_to_uint256 v)) 32 x00) x00) in
  length rest < STACK_DEPTH_LIMIT ->
  calldataload (set_stack (v :: rest) c) = (set_stack (pushed :: rest) c, Ok tt)
  /\ (msg_data (msg c) = [x01] -> item_to_uint256 v = 0%N ->
      pushed = BytesItem (x01 :: replicate 31 x00)
      /\ item_to_uint256 pushed = (2 ^ 248)%N).
Proof.
  intros pushed Hdepth. split; [by apply calldataload_run|].
  intros Hdata Hzero. unfold pushed, calldata_window.
  rewrite Hdata, Hzero. split; reflexivity.
Qed.


End LoadProperties.

(** ** Properties of the VM driver *)

Section DriverProperties.
Context `{CA : ChainAccess}.

(** What the release does, whatever the body did to the header: the
    check and the write-back are against the header as it is when the
    scope ends. *)
Lemma state_db_completes {A} (read_only : bool)
    (body : State -> VM -> State * VM * Result A) (v v' : VM) (state' : State) (a : A) :
  body (new_state (vm_db v) (state_root (header (block v)))) v = (state', v', Ok a) ->
  state_db read_only body v
  = if read_only then
      if decide (root_hash state' = state_root (header (block v')))
      then (v', Ok a) else (v', Raise AssertionError)
    else if decide (state_root (header (block v')) <> root_hash state')
    then (set_state_root (root_hash state') v', Ok a)
    else (v', Ok a).
Proof.
  intros Hbody. unfold state_db, state_db_release. rewrite Hbody.
  destruct read_only.
  - by destruct (decide (root_hash state' = state_root (header (block v')))).
  - by destruct (decide (state_root (header (block v')) <> root_hash state')).
Qed.

Lemma set_state_root_changes (r : Hash) (v : VM) :
  state_root (header (block v)) <> r -> set_state_root r v <> v.
Proof. intros Hne Heq. apply Hne. by rewrite <- Heq at 1. Qed.

(** C6 (as amended).  For every acquisition of the [state_db] scope
    whose body completes: acquired read-only, the release asserts that
    the state root equals the state root of the block header as it is
    read at release (the root recorded at acquisition unless the code
    inside the scope has itself written the header), an assertion failure
    when they differ, and the release itself leaves the VM, header
    included, as the body left it; acquired mutably, the release writes
    the state's root into the block header if and only if it differs from
    the header's state root at release. *)
Theorem state_db_release_at_release {A}
    (body : State -> VM -> State * VM * Result A) (v v' : VM) (state' : State) (a : A) :
  let r1 := state_root (header (block v')) in
  body (new_state (vm_db v) (state_root (header (block v)))) v = (state', v', Ok a) ->
  (root_hash state' = r1 -> state_db true body v = (v', Ok a))
  /\ (root_hash state' <> r1 -> state_db true body v = (v', Raise AssertionError))
  /\ (root_hash state' = r1 -> state_db false body v = (v', Ok a))
  /\ (root_hash state' <> r1 ->
      state_db false body v = (set_state_root (root_hash state') v', Ok a)
      /\ set_state_root (root_hash state') v' <> v'
      /\ state_root (header (block (set_state_root (root_hash state') v')))
         = root_hash state').
Proof.
  intros r1 Hbody.
  pose proof (state_db_completes true body v v' state' a Hbody) as Hro.
  pose proof (state_db_completes false body v v' state' a Hbody) as Hrw.
  cbv iota in Hro, Hrw. fold r1 in Hro, Hrw.
  split; [|split; [|split]].
  - intros Heq. rewrite Hro. by destruct (decide (root_hash state' = r1)).
  - intros Hne. rewrite Hro. by destruct (decide (root_hash state' = r1)).
  - intros Heq. rewrite Hrw. destruct (decide (r1 <> root_hash state')); congruence.
  - intros Hne. split; [|split; [|reflexivity]].
    + rewrite Hrw.
      destruct (decide (r1 <> root_hash state')) as [_|Hnn]; [reflexivity|].
      exfalso. apply Hnn. congruence.
    + apply set_state_root_changes. fold r1. congruence.
Qed.

(** C7 (as amended).  The release action of the [state_db] scope (the
    read-only check, or the write-back of a changed root) is performed
    when the code inside the scope completes; when that code raises, the
    error leaves the scope as it is and no release action is performed:
    no check, no write-back, the VM is as the body left it. *)
Theorem state_db_release_on_completion_only {A} (read_only : bool)
    (body : State -> VM -> State * VM * Result A) (v : VM) :
  match body (new_state (vm_db v) (state_root (header (block v)))) v with
  | (state', v', Ok a) =>
      state_db read_only body v
      = (fst (state_db_release read_only state' v'),
         match snd (state_db_release read_only state' v') with
         | Ok _ => Ok a
         | Raise e => Raise e
         end)
  | (_, v', Raise e) => state_db read_only body v = (v', Raise e)
  end.
Proof.
  unfold state_db.
  destruct (body _ v) as [[state' v'] [a|e]]; [|reflexivity].
  by destruct (state_db_release read_only state' v') as [v'' [[]|e]].
Qed.

(** C10.  When the depth of the requested ancestor (the current block
    number minus the requested number) is more than 256 or less than 1,
    [get_ancestor_hash] returns the empty byte string, without a lookup
    and whatever the fuel. *)
Theorem get_ancestor_hash_out_of_range (fuel : nat) (self : VM) (block_number : Z) :
  (256 < number (block self) - block_number
   \/ number (block self) - block_number < 1)%Z ->
  get_ancestor_hash fuel self block_number = Some (Ok []).
Proof.
  intros Hdepth. unfold get_ancestor_hash. cbv zeta.
  rewrite Z.gtb_ltb.
  destruct (Z.ltb_spec 256 (number (block self) - block_number)); [reflexivity|].
  destruct (Z.ltb_spec (number (block self) - block_number) 1); [reflexivity|].
  lia.
Qed.

End DriverProperties.

Section DispatchProperties.
Context `{SA : StateAccess}.

(** C8 (as amended).  On every VM class whose opcode table is set,
    [get_opcode_fn] returns an operation for every opcode byte and never
    an error: the table's entry when the byte is mapped, and
    [InvalidOpcode byte] when it is not; calling [InvalidOpcode byte]
    fails on every computation, leaving it as it was.  On a class whose
    [opcodes] is still the default [None], [get_opcode_fn] raises
    TypeError for every byte. *)
Theorem get_opcode_fn_on_table (table : gmap N Opcode) (opcode : N) :
  get_opcode_fn (Some table) opcode
  = Ok (default (InvalidOpcode opcode) (table !! opcode))
  /\ (forall c : Computation,
        call_opcode (InvalidOpcode opcode) c = (c, Raise (InvalidInstruction opcode)))
  /\ get_opcode_fn None opcode = Raise TypeError.
Proof.
  split; [|split; reflexivity].
  unfold get_opcode_fn, opcodes_getitem, dict_getitem. by destruct (table !! opcode).
Qed.

End DispatchProperties.

(** ** Concrete runs *)

Import InMemory.

(** C1, counterexample.  CALLDATACOPY(memOffset=0, srcOffset=0, size=64)
    on a 32-byte memory with 4 gas left and GAS_COPY = 3: the word-count
    fee of 6 cannot be paid and the opcode ends with OutOfGas, yet the
    memory has grown from 32 to 64 bytes, both when memory expansion is
    charged (3 of the 4 gas are gone) and when it is free. *)
Lemma copy_word_fee_failure_after_growth :
  let c0 := computation [IntItem 0; IntItem 0; IntItem 64] (replicate 32 x01) 4 [] [] in
  length (memory c0) = 32
  /\ (snd (calldatacopy (GS:=metered_memory) c0) = Raise OutOfGas
      /\ length (memory (fst (calldatacopy (GS:=metered_memory) c0))) = 64
      /\ gas_remaining (gas_meter (fst (calldatacopy (GS:=metered_memory) c0))) = 1%N)
  /\ (snd (calldatacopy (GS:=free_memory) c0) = Raise OutOfGas
      /\ length (memory (fst (calldatacopy (GS:=free_memory) c0))) = 64
      /\ gas_remaining (gas_meter (fst (calldatacopy (GS:=free_memory) c0))) = 4%N)
  /\ memory (fst (calldatacopy (GS:=metered_memory) c0)) <> memory c0.
Proof.
  cbv zeta. split; [reflexivity|]. split; [by vm_compute|]. split; [by vm_compute|].
  intros Heq. apply (f_equal length) in Heq. vm_compute in Heq. discriminate.
Qed.

Lemma copy_word_fee_charged_after_extension_witness :
  let c := computation [] (replicate 32 x01) 4 [] [] in
  codecopy (GS:=metered_memory) (set_stack [IntItem 0; IntItem 0; IntItem 64] c)
  = (extended 0 64 (charged 3 c), Raise OutOfGas)
  /\ length (memory (extended 0 64 (charged 3 c))) = 64.
Proof.
  cbv zeta.
  destruct (copy_word_fee_charged_after_extension (GS:=metered_memory)
              (computation [] (replicate 32 x01) 4 [] [])
              (IntItem 0) (IntItem 0) (IntItem 0) (IntItem 64) [])
    as [(_ & Hcode & _) _].
  - by vm_compute.
  - by vm_compute.
  - split; [exact Hcode|reflexivity].
Defined.

Lemma copy_zero_fill_witness :
  exists c',
    calldatacopy (GS:=metered_memory)
      (computation [IntItem 0; IntItem 1; IntItem 4] [] 10 [x0a; x0b] []) = (c', Ok tt)
    /\ memory c' !! 0 = Some x0b
    /\ memory c' !! 1 = Some x00
    /\ memory c' !! 3 = Some x00.
Proof.
  destruct (copy_zero_fill (GS:=metered_memory)
              (computation [] [] 10 [x0a; x0b] [])
              (IntItem 0) (IntItem 0) (IntItem 1) (IntItem 4) [])
    as [(c' & Hrun & Hin & Hout) _].
  - by vm_compute.
  - exists c'. split; [exact Hrun|]. split; [|split].
    + by apply (Hin 0 x0b); [vm_compute; lia|].
    + by apply (Hout 1); vm_compute; lia.
    + by apply (Hout 3); vm_compute; lia.
Defined.

Lemma copy_pops_extends_charges_witness :
  exists c',
    codecopy (GS:=metered_memory)
      (computation [IntItem 0; IntItem 0; IntItem 4] [] 10 [] [x60; x00; x80; x00])
    = (c', Ok tt)
    /\ stack c' = []
    /\ take 4 (memory c') = [x60; x00; x80; x00]
    /\ gas_remaining (gas_meter c') = (10 - 3 - 1 * 3)%N.
Proof.
  destruct (copy_pops_extends_charges (GS:=metered_memory)
              (computation [] [] 10 [] [x60; x00; x80; x00])
              (IntItem 0) (IntItem 0) (IntItem 4) [])
    as [_ (c' & Hrun & Hstack & _ & Hmem & _ & Hfour)].
  - by vm_compute.
  - exists c'. split; [exact Hrun|]. split; [exact Hstack|]. split.
    + by rewrite Hmem.
    + by rewrite Hfour.
Defined.

Lemma calldataload_padding_laws_witness :
  (exists pushed,
     calldataload (computation [IntItem 5] [] 0 [x0a; x0b] [])
     = (computation [pushed] [] 0 [x0a; x0b] [], Ok tt)
     /\ item_to_uint256 pushed = 0%N)
  /\ (exists pushed,
        calldataload (computation [IntItem 1] [] 0 [x0a; x0b] [])
        = (computation [pushed] [] 0 [x0a; x0b] [], Ok tt)
        /\ item_to_uint256 pushed = big_endian_to_int (x0b :: replicate 31 x00)).
Proof.
  split.
  - destruct (calldataload_padding_laws (computation [] [] 0 [x0a; x0b] [])
                (IntItem 5) [])
      as (pushed & Hrun & Hzero & _); [vm_compute; lia|].
    exists pushed. split; [exact Hrun|]. apply Hzero. vm_compute. lia.
  - destruct (calldataload_padding_laws (computation [] [] 0 [x0a; x0b] [])
                (IntItem 1) [])
      as (pushed & Hrun & _ & Hshort); [vm_compute; lia|].
    exists pushed. split; [exact Hrun|]. apply Hshort. vm_compute. lia.
Defined.

(** C3, counterexample.  CALLDATALOAD with popped offset 0 on the
    one-byte input 0x01 succeeds and pushes 0x01 followed by 31 zero
    bytes, whose integer value is 2^248 and not 1. *)
Lemma calldataload_one_byte_is_not_one :
  let c0 := computation [IntItem 0] [] 0 [x01] [] in
  snd (calldataload c0) = Ok tt
  /\ stack (fst (calldataload c0)) = [BytesItem (x01 :: replicate 31 x00)]
  /\ item_to_uint256 <$> head (stack (fst (calldataload c0))) = Some (2 ^ 248)%N
  /\ item_to_uint256 <$> head (stack (fst (calldataload c0))) <> Some 1%N.
Proof.
  cbv zeta. split; [reflexivity|]. split; [reflexivity|]. split; [reflexivity|].
  vm_compute. discriminate.
Qed.

Lemma calldataload_right_padded_witness :
  calldataload (computation [IntItem 0] [] 0 [x01] [])
  = (computation [BytesItem (x01 :: replicate 31 x00)] [] 0 [x01] [], Ok tt).
Proof.
  destruct (calldataload_right_padded (computation [] [] 0 [x01] []) (IntItem 0) [])
    as [Hrun Hscenario]; [vm_compute; lia|].
  destruct (Hscenario eq_refl eq_refl) as [Hpushed _].
  rewrite Hpushed in Hrun. exact Hrun.
Defined.


(** C6, counterexample.  Acquired read-only on a header at root 0x2a: a
    body that moves the state and the header together to 0x01 passes the
    check although the state root is no longer the root recorded at
    acquisition; a body that writes only the header fails the check
    although the state root is still the root recorded at acquisition.
    Acquired mutably, after the body that writes only the header the
    release writes 0x2a into the header although the state root has not
    changed. *)
Lemma state_db_checks_against_current_header :
  (state_db true moving_body genesis_vm = (set_state_root [x01] genesis_vm, Ok tt)
   /\ root_hash (fst (fst (moving_body (new_state empty_store [x2a]) genesis_vm)))
      <> state_root (header (block genesis_vm)))
  /\ (state_db true header_body genesis_vm
      = (set_state_root [x01] genesis_vm, Raise AssertionError)
      /\ root_hash (fst (fst (header_body (new_state empty_store [x2a]) genesis_vm)))
         = state_root (header (block genesis_vm)))
  /\ (snd (fst (header_body (new_state empty_store [x2a]) genesis_vm))
      = set_state_root [x01] genesis_vm
      /\ state_db false header_body genesis_vm
         = (set_state_root [x2a] (set_state_root [x01] genesis_vm), Ok tt)).
Proof.
  split; [|split].
  - split; [reflexivity|]. vm_compute. discriminate.
  - split; reflexivity.
  - split; reflexivity.
Qed.

Lemma state_db_release_at_release_witness :
  state_db false rerooting_body genesis_vm = (set_state_root [x01] genesis_vm, Ok tt)
  /\ state_db true rerooting_body genesis_vm = (genesis_vm, Raise AssertionError)
  /\ state_db true moving_body genesis_vm = (set_state_root [x01] genesis_vm, Ok tt).
Proof.
  destruct (state_db_release_at_release rerooting_body genesis_vm genesis_vm
              {| view_store := empty_store; view_root := [x01] |} tt eq_refl)
    as (_ & Hro & _ & Hrw).
  destruct (state_db_release_at_release moving_body genesis_vm
              (set_state_root [x01] genesis_vm)
              {| view_store := empty_store; view_root := [x01] |} tt eq_refl)
    as (Hmoved & _).
  split; [|split].
  - by apply Hrw.
  - by apply Hro.
  - by apply Hmoved.
Defined.

(** C8, counterexample.  On a VM class that has not set its opcode table
    ([opcodes] is [None]), [get_opcode_fn] returns no operation: the
    lookup raises TypeError, which [except KeyError] does not catch. *)
Lemma get_opcode_fn_without_table :
  get_opcode_fn None 96 = Raise TypeError
  /\ (forall op : Opcode, get_opcode_fn None 96 <> Ok op).
Proof. split; [reflexivity|]. intros op. discriminate. Qed.

(** C7, counterexample.  The body moves the state to the root 0x01 and
    then raises.  Acquired mutably, the scope ends with the header still
    at 0x2a, where the release would have written 0x01; acquired
    read-only, it ends with the body's error, where the release would
    have been an assertion failure. *)
Lemma state_db_no_release_on_error :
  let state' := {| view_store := empty_store; view_root := [x01] |} in
  snd (failing_body (new_state empty_store [x2a]) genesis_vm) = Raise (OtherError 0)
  /\ state_root (header (block (fst (state_db false failing_body genesis_vm)))) = [x2a]
  /\ state_root (header (block (fst (state_db_release false state' genesis_vm)))) = [x01]
  /\ snd (state_db true failing_body genesis_vm) = Raise (OtherError 0)
  /\ snd (state_db_release true state' genesis_vm) = Raise AssertionError.
Proof. cbv zeta. repeat split. Qed.

Lemma get_ancestor_hash_out_of_range_witness :
  get_ancestor_hash 0 genesis_vm 7 = Some (Ok [])
  /\ get_ancestor_hash 0 genesis_vm (-250) = Some (Ok []).
Proof.
  split.
  - apply get_ancestor_hash_out_of_range. right. vm_compute. reflexivity.
  - apply get_ancestor_hash_out_of_range. left. vm_compute. reflexivity.
Defined.

(** * Further properties *)

(** ** What every opcode of context.py keeps *)

Section Respecting.
Context `{SA : StateAccess} `{GS : GasSchedule} `{CO : Coercions}.

Section Generic.
Variable R : Computation -> Computation -> Prop.
Hypothesis R_refl : forall c, R c c.
Hypothesis R_trans : forall c1 c2 c3, R c1 c2 -> R c2 c3 -> R c1 c3.

Lemma respects_ret {A} (a : A) : respects R (ret a).
Proof using R_refl. intros c c' r [= <- _]. apply R_refl. Qed.

Lemma respects_raise {A} (e : VMError) : respects R (raise (A:=A) e).
Proof using R_refl. intros c c' r [= <- _]. apply R_refl. Qed.

Lemma respects_bind {A B} (m : M A) (k : A -> M B) :
  respects R m -> (forall a, respects R (k a)) -> respects R (bind m k).
Proof using R_trans.
  intros Hm Hk c c' r Hrun. unfold bind in Hrun.
  destruct (m c) as [c1 [a|e]] eqn:Hmc.
  - eapply R_trans; [exact (Hm _ _ _ Hmc)|exact (Hk _ _ _ _ Hrun)].
  - injection Hrun as <- _. exact (Hm _ _ _ Hmc).
Qed.

Hypothesis R_pop : forall k, respects R (lift_stack (stack_pop k)).
Hypothesis R_push : forall v, respects R (push v).
Hypothesis R_scope : forall A (f : State -> A),
  respects R (lift_vm (state_db true (reading f))).

Lemma respects_pop_uint256 : respects R pop_uint256.
Proof using R_refl R_trans R_pop.
  apply respects_bind; [apply R_pop|].
  intros [|v [|? ?]]; first [apply respects_ret | apply respects_raise].
Qed.

Lemma respects_pop_bytes : respects R pop_bytes.
Proof using R_refl R_trans R_pop.
  apply respects_bind; [apply R_pop|].
  intros [|v [|? ?]]; first [apply respects_ret | apply respects_raise].
Qed.

Lemma respects_pop3_uint256 : respects R pop3_uint256.
Proof using R_refl R_trans R_pop.
  apply respects_bind; [apply R_pop|].
  intros [|v1 [|v2 [|v3 [|? ?]]]]; first [apply respects_ret | apply respects_raise].
Qed.

(** An opcode that pushes an item computed from the computation. *)
Lemma respects_push_of (f : Computation -> StackItem) :
  respects R (fun c => push (f c) c).
Proof using R_push. intros c c' r Hrun. exact (R_push _ _ _ _ Hrun). Qed.

Lemma plain_opcodes_respect (op : M unit) :
  op ∈ plain_opcodes -> respects R op.
Proof using R_refl R_trans R_pop R_push R_scope.
  unfold plain_opcodes. intros Hin.
  repeat (apply elem_of_cons in Hin as [->|Hin]);
    try (apply elem_of_nil in Hin; contradiction).
  - apply respects_bind; [apply respects_pop_bytes|]. intros raw.
    apply respects_bind; [apply R_scope|]. intros b. apply R_push.
  - apply (respects_push_of (fun c => BytesItem (msg_origin (msg c)))).
  - apply (respects_push_of (fun c => BytesItem (msg_storage_address (msg c)))).
  - apply (respects_push_of (fun c => BytesItem (msg_sender (msg c)))).
  - apply (respects_push_of (fun c => IntItem (msg_value (msg c)))).
  - apply respects_bind; [apply respects_pop_uint256|]. intros o.
    apply (respects_push_of (fun c =>
             BytesItem (lstrip (pad_right (slice (msg_data (msg c)) o (o + 32)) 32 x00)
                               x00))).
  - apply (respects_push_of (fun c => IntItem (N.of_nat (length (msg_data (msg c)))))).
  - apply (respects_push_of (fun c => IntItem (N.of_nat (length (code_bytes (code c)))))).
  - apply (respects_push_of (fun c => IntItem (msg_gas_price (msg c)))).
  - apply respects_bind; [apply respects_pop_bytes|]. intros raw.
    apply respects_bind; [apply R_scope|]. intros n. apply R_push.
Qed.

Hypothesis R_gas : forall amount, respects R (consume_gas amount).
Hypothesis R_extend : forall start_position size,
  respects R (lift_memory (fun m => (memory_extend start_position size m, Ok tt))).
Hypothesis R_write : forall start_position size value,
  respects R (lift_memory (memory_write start_position size value)).
Hypothesis R_code : forall position size,
  respects R (lift_code (code_seek position (code_read size))).

Lemma respects_extend_memory (start_position size : N) :
  respects R (extend_memory start_position size).
Proof using R_refl R_trans R_gas R_extend.
  intros c c' r Hrun. unfold extend_memory in Hrun. cbv zeta in Hrun.
  revert c c' r Hrun. apply respects_bind; [|intros _; apply R_extend].
  intros c. destruct (_ <? _)%N; [apply R_gas|apply respects_ret].
Qed.

Lemma respects_copy_steps (start_position size word_fee : N) (fetch : M bytes) :
  respects R fetch -> respects R (copy_steps start_position size word_fee fetch).
Proof using R_refl R_trans R_gas R_extend R_write.
  intros Hfetch. unfold copy_steps.
  apply respects_bind; [apply respects_extend_memory|]. intros _.
  apply respects_bind; [apply R_gas|]. intros _.
  apply respects_bind; [exact Hfetch|]. intros chunk. apply R_write.
Qed.

Lemma copy_opcodes_respect (op : M unit) :
  op ∈ copy_opcodes -> respects R op.
Proof using R_refl R_trans R_pop R_scope R_gas R_extend R_write R_code.
  unfold copy_opcodes. intros Hin.
  repeat (apply elem_of_cons in Hin as [->|Hin]);
    try (apply elem_of_nil in Hin; contradiction).
  - intros c c' r Hrun. rewrite calldatacopy_steps in Hrun. revert c c' r Hrun.
    apply respects_bind; [apply respects_pop3_uint256|]. intros [[m s] n].
    apply respects_copy_steps. intros c c' r [= <- _]. apply R_refl.
  - intros c c' r Hrun. rewrite codecopy_steps in Hrun. revert c c' r Hrun.
    apply respects_bind; [apply respects_pop3_uint256|]. intros [[m s] n].
    apply respects_copy_steps. apply R_code.
  - intros c c' r Hrun. rewrite extcodecopy_steps in Hrun. revert c c' r Hrun.
    apply respects_bind; [apply respects_pop_bytes|]. intros raw. cbv zeta.
    apply respects_bind; [apply respects_pop3_uint256|]. intros [[m s] n].
    apply respects_copy_steps.
    apply respects_bind; [apply R_scope|]. intros cd. apply respects_ret.
Qed.

End Generic.

Lemma context_opcodes_split (op : M unit) :
  op ∈ context_opcodes -> op ∈ plain_opcodes \/ op ∈ copy_opcodes.
Proof.
  unfold context_opcodes, plain_opcodes, copy_opcodes. intros Hin.
  repeat (apply elem_of_cons in Hin as [->|Hin]);
    try (apply elem_of_nil in Hin; contradiction);
    first [ left; by repeat constructor | right; by repeat constructor ].
Qed.

End Respecting.

Section Kept.
Context `{SA : StateAccess} `{GS : GasSchedule} `{CO : Coercions}.

Lemma lift_stack_inv {A} (f : Stack -> Stack * Result A) (c c' : Computation) r :
  lift_stack f c = (c', r) -> c' = set_stack (fst (f (stack c))) c.
Proof. unfold lift_stack. destruct (f (stack c)). by intros [= <- _]. Qed.

Lemma lift_memory_inv {A} (f : Memory -> Memory * Result A) (c c' : Computation) r :
  lift_memory f c = (c', r) -> c' = set_memory (fst (f (memory c))) c.
Proof. unfold lift_memory. destruct (f (memory c)). by intros [= <- _]. Qed.

Lemma lift_gas_inv {A} (f : GasMeter -> GasMeter * Result A) (c c' : Computation) r :
  lift_gas f c = (c', r) -> c' = set_gas_meter (fst (f (gas_meter c))) c.
Proof. unfold lift_gas. destruct (f (gas_meter c)). by intros [= <- _]. Qed.

Lemma scope_inv {A} (f : State -> A) (c c' : Computation) r :
  lift_vm (state_db true (reading f)) c = (c', r) -> c' = c.
Proof. rewrite lift_state_db_reading. by intros [= <- _]. Qed.

Lemma seek_read_inv (position size : N) (c c' : Computation) r :
  lift_code (code_seek position (code_read size)) c = (c', r) -> c' = c.
Proof. rewrite seek_read_run. by intros [= <- _]. Qed.

Lemma length_stack_pop (k : nat) (s : Stack) :
  length (fst (stack_pop k s)) <= length s.
Proof.
  unfold stack_pop. destruct (length s <? k)%nat; simpl; [lia|].
  rewrite length_drop. lia.
Qed.

Lemma length_stack_push (v : StackItem) (s : Stack) :
  length s <= STACK_DEPTH_LIMIT ->
  length (fst (stack_push v s)) <= STACK_DEPTH_LIMIT.
Proof.
  intros Hle. unfold stack_push.
  destruct (Nat.leb_spec STACK_DEPTH_LIMIT (length s)); simpl; lia.
Qed.

Lemma length_memory_write (start_position size : N) (value : bytes) (m : Memory) :
  length (fst (memory_write start_position size value m)) = length m.
Proof.
  unfold memory_write.
  destruct (N.eqb_spec (N.of_nat (length value)) size) as [Hlen|]; [|reflexivity].
  simpl.
  destruct (N.ltb_spec (N.of_nat (length m)) (start_position + size)); [reflexivity|].
  simpl. rewrite !length_app, length_take, length_drop. lia.
Qed.

Lemma meter_consume_gas_le (amount : N) (g : GasMeter) :
  (gas_remaining (fst (meter_consume_gas amount g)) <= gas_remaining g)%N
  /\ gas_refunded (fst (meter_consume_gas amount g)) = gas_refunded g.
Proof.
  unfold meter_consume_gas.
  destruct (N.ltb_spec (gas_remaining g) amount); simpl; split; (lia || reflexivity).
Qed.

(** X4.  No opcode of context.py changes the message, the VM (the
    database and the block header with its state root) or the code
    stream (bytes and program counter), whether it returns or raises. *)
Theorem context_opcodes_keep_surroundings (op : M unit) (c c' : Computation)
    (r : Result unit) :
  op ∈ context_opcodes -> op c = (c', r) ->
  msg c' = msg c /\ vm c' = vm c /\ code c' = code c.
Proof.
  intros Hin Hrun. change (same_surroundings c c').
  assert (Hrefl : forall x, same_surroundings x x) by (by intros x).
  assert (Htrans : forall x y z, same_surroundings x y -> same_surroundings y z ->
                                 same_surroundings x z).
  { intros x y z (H1 & H2 & H3) (H4 & H5 & H6). repeat split; congruence. }
  assert (Hpop : forall k, respects same_surroundings (lift_stack (stack_pop k))).
  { intros k x y q Hq. apply lift_stack_inv in Hq as ->. by repeat split. }
  assert (Hpush : forall v, respects same_surroundings (push v)).
  { intros v x y q Hq. apply lift_stack_inv in Hq as ->. by repeat split. }
  assert (Hscope : forall A (f : State -> A),
             respects same_surroundings (lift_vm (state_db true (reading f)))).
  { intros A f x y q Hq. apply scope_inv in Hq as ->. apply Hrefl. }
  destruct (context_opcodes_split op Hin) as [Hplain|Hcopy].
  - exact (plain_opcodes_respect _ Hrefl Htrans Hpop Hpush Hscope op Hplain c c' r Hrun).
  - refine (copy_opcodes_respect _ Hrefl Htrans Hpop Hscope _ _ _ _ op Hcopy c c' r Hrun).
    + intros a x y q Hq. apply lift_gas_inv in Hq as ->. by repeat split.
    + intros m n x y q Hq. apply lift_memory_inv in Hq as ->. by repeat split.
    + intros m n v x y q Hq. apply lift_memory_inv in Hq as ->. by repeat split.
    + intros p n x y q Hq. apply seek_read_inv in Hq as ->. apply Hrefl.
Qed.

(** X3.  No opcode of context.py gives gas back: after it, returned or
    raised, the remaining gas is at most what it was and the refund
    counter is the same. *)
Theorem context_opcodes_never_add_gas (op : M unit) (c c' : Computation)
    (r : Result unit) :
  op ∈ context_opcodes -> op c = (c', r) ->
  (gas_remaining (gas_meter c') <= gas_remaining (gas_meter c))%N
  /\ gas_refunded (gas_meter c') = gas_refunded (gas_meter c).
Proof.
  intros Hin Hrun. change (gas_not_more c c').
  assert (Hrefl : forall x, gas_not_more x x) by (intros x; split; [lia|done]).
  assert (Htrans : forall x y z, gas_not_more x y -> gas_not_more y z -> gas_not_more x z).
  { intros x y z [H1 H2] [H3 H4]. split; [lia|congruence]. }
  assert (Hpop : forall k, respects gas_not_more (lift_stack (stack_pop k))).
  { intros k x y q Hq. apply lift_stack_inv in Hq as ->. by split; simpl; [lia|]. }
  assert (Hpush : forall v, respects gas_not_more (push v)).
  { intros v x y q Hq. apply lift_stack_inv in Hq as ->. by split; simpl; [lia|]. }
  assert (Hscope : forall A (f : State -> A),
             respects gas_not_more (lift_vm (state_db true (reading f)))).
  { intros A f x y q Hq. apply scope_inv in Hq as ->. apply Hrefl. }
  destruct (context_opcodes_split op Hin) as [Hplain|Hcopy].
  - exact (plain_opcodes_respect _ Hrefl Htrans Hpop Hpush Hscope op Hplain c c' r Hrun).
  - refine (copy_opcodes_respect _ Hrefl Htrans Hpop Hscope _ _ _ _ op Hcopy c c' r Hrun).
    + intros a x y q Hq. apply lift_gas_inv in Hq as ->. apply meter_consume_gas_le.
    + intros m n x y q Hq. apply lift_memory_inv in Hq as ->. by split; simpl; [lia|].
    + intros m n v x y q Hq. apply lift_memory_inv in Hq as ->. by split; simpl; [lia|].
    + intros p n x y q Hq. apply seek_read_inv in Hq as ->. apply Hrefl.
Qed.

(** X2.  Every opcode of context.py keeps the stack within its depth
    limit, whether it returns or raises. *)
Theorem context_opcodes_keep_stack_depth (op : M unit) (c c' : Computation)
    (r : Result unit) :
  op ∈ context_opcodes -> op c = (c', r) ->
  length (stack c) <= STACK_DEPTH_LIMIT -> length (stack c') <= STACK_DEPTH_LIMIT.
Proof.
  intros Hin Hrun. change (depth_kept c c').
  assert (Hrefl : forall x, depth_kept x x) by (intros x H; exact H).
  assert (Htrans : forall x y z, depth_kept x y -> depth_kept y z -> depth_kept x z).
  { intros x y z H1 H2 H. apply H2, H1, H. }
  assert (Hpop : forall k, respects depth_kept (lift_stack (stack_pop k))).
  { intros k x y q Hq. apply lift_stack_inv in Hq as ->. intros H. simpl.
    pose proof (length_stack_pop k (stack x)). lia. }
  assert (Hpush : forall v, respects depth_kept (push v)).
  { intros v x y q Hq. apply lift_stack_inv in Hq as ->. intros H. simpl.
    by apply length_stack_push. }
  assert (Hscope : forall A (f : State -> A),
             respects depth_kept (lift_vm (state_db true (reading f)))).
  { intros A f x y q Hq. apply scope_inv in Hq as ->. apply Hrefl. }
  destruct (context_opcodes_split op Hin) as [Hplain|Hcopy].
  - exact (plain_opcodes_respect _ Hrefl Htrans Hpop Hpush Hscope op Hplain c c' r Hrun).
  - refine (copy_opcodes_respect _ Hrefl Htrans Hpop Hscope _ _ _ _ op Hcopy c c' r Hrun).
    + intros a x y q Hq. apply lift_gas_inv in Hq as ->. intros H; exact H.
    + intros m n x y q Hq. apply lift_memory_inv in Hq as ->. intros H; exact H.
    + intros m n v x y q Hq. apply lift_memory_inv in Hq as ->. intros H; exact H.
    + intros p n x y q Hq. apply seek_read_inv in Hq as ->. apply Hrefl.
Qed.

(** X6.  No opcode of context.py makes the memory shorter, whether it
    returns or raises. *)
Theorem context_opcodes_never_shrink_memory (op : M unit) (c c' : Computation)
    (r : Result unit) :
  op ∈ context_opcodes -> op c = (c', r) ->
  length (memory c) <= length (memory c').
Proof.
  intros Hin Hrun. change (memory_not_shorter c c').
  assert (Hrefl : forall x, memory_not_shorter x x) by (intros x; unfold memory_not_shorter; lia).
  assert (Htrans : forall x y z, memory_not_shorter x y -> memory_not_shorter y z ->
                                 memory_not_shorter x z).
  { unfold memory_not_shorter. intros x y z H1 H2. lia. }
  assert (Hpop : forall k, respects memory_not_shorter (lift_stack (stack_pop k))).
  { intros k x y q Hq. apply lift_stack_inv in Hq as ->. unfold memory_not_shorter; simpl; lia. }
  assert (Hpush : forall v, respects memory_not_shorter (push v)).
  { intros v x y q Hq. apply lift_stack_inv in Hq as ->. unfold memory_not_shorter; simpl; lia. }
  assert (Hscope : forall A (f : State -> A),
             respects memory_not_shorter (lift_vm (state_db true (reading f)))).
  { intros A f x y q Hq. apply scope_inv in Hq as ->. apply Hrefl. }
  destruct (context_opcodes_split op Hin) as [Hplain|Hcopy].
  - exact (plain_opcodes_respect _ Hrefl Htrans Hpop Hpush Hscope op Hplain c c' r Hrun).
  - refine (copy_opcodes_respect _ Hrefl Htrans Hpop Hscope _ _ _ _ op Hcopy c c' r Hrun).
    + intros a x y q Hq. apply lift_gas_inv in Hq as ->. unfold memory_not_shorter; simpl; lia.
    + intros m n x y q Hq. apply lift_memory_inv in Hq as ->.
      unfold memory_not_shorter. simpl. apply memory_extend_grows.
    + intros m n v x y q Hq. apply lift_memory_inv in Hq as ->.
      unfold memory_not_shorter. simpl. by rewrite length_memory_write.
    + intros p n x y q Hq. apply seek_read_inv in Hq as ->. apply Hrefl.
Qed.

(** X5.  The ten opcodes of context.py that do not copy (BALANCE, ORIGIN,
    ADDRESS, CALLER, CALLVALUE, CALLDATALOAD, CALLDATASIZE, CODESIZE,
    GASPRICE, EXTCODESIZE) never touch the memory or the gas meter,
    whether they return or raise. *)
Theorem plain_opcodes_leave_memory_and_gas (op : M unit) (c c' : Computation)
    (r : Result unit) :
  op ∈ plain_opcodes -> op c = (c', r) ->
  memory c' = memory c /\ gas_meter c' = gas_meter c.
Proof.
  intros Hin Hrun. change (memory_and_gas_same c c').
  assert (Hrefl : forall x, memory_and_gas_same x x) by (by intros x).
  assert (Htrans : forall x y z, memory_and_gas_same x y -> memory_and_gas_same y z ->
                                 memory_and_gas_same x z).
  { intros x y z [H1 H2] [H3 H4]. split; congruence. }
  refine (plain_opcodes_respect _ Hrefl Htrans _ _ _ op Hin c c' r Hrun).
  - intros k x y q Hq. apply lift_stack_inv in Hq as ->. by split.
  - intros v x y q Hq. apply lift_stack_inv in Hq as ->. by split.
  - intros A f x y q Hq. apply scope_inv in Hq as ->. apply Hrefl.
Qed.

End Kept.

(** ** The copy opcodes: failures and the bytes around the copy *)

Section CopyFrames.
Context `{SA : StateAccess} `{GS : GasSchedule} `{CO : Coercions}.

Lemma contents_kept_refl (c : Computation) : contents_kept c c.
Proof. unfold contents_kept. by rewrite take_ge. Qed.

Lemma contents_kept_trans (c1 c2 c3 : Computation) :
  contents_kept c1 c2 -> contents_kept c2 c3 -> contents_kept c1 c3.
Proof.
  unfold contents_kept. intros H12 H23.
  assert (Hlen : length (memory c1) <= length (memory c2)).
  { rewrite <- H12 at 1. rewrite length_take. lia. }
  transitivity (take (length (memory c1)) (take (length (memory c2)) (memory c3))).
  - rewrite take_take. f_equal. lia.
  - by rewrite H23.
Qed.

Lemma respects_raising_bind {A B} (R : Computation -> Computation -> Prop)
    (m : M A) (k : A -> M B) :
  (forall c1 c2 c3, R c1 c2 -> R c2 c3 -> R c1 c3) ->
  respects R m -> (forall a, respects_raising R (k a)) ->
  respects_raising R (bind m k).
Proof.
  intros Htrans Hm Hk c c' e Hrun. unfold bind in Hrun.
  destruct (m c) as [c1 [a|e1]] eqn:Hmc.
  - eapply Htrans; [exact (Hm _ _ _ Hmc)|exact (Hk _ _ _ _ Hrun)].
  - injection Hrun as <- _. exact (Hm _ _ _ Hmc).
Qed.

Lemma contents_kept_pop (k : nat) : respects contents_kept (lift_stack (stack_pop k)).
Proof.
  intros c c' r Hq. apply lift_stack_inv in Hq as ->.
  unfold contents_kept. simpl. by rewrite take_ge.
Qed.

Lemma contents_kept_gas (amount : N) : respects contents_kept (consume_gas amount).
Proof.
  intros c c' r Hq. apply lift_gas_inv in Hq as ->.
  unfold contents_kept. simpl. by rewrite take_ge.
Qed.

Lemma contents_kept_extend (start_position size : N) :
  respects contents_kept
    (lift_memory (fun m => (memory_extend start_position size m, Ok tt))).
Proof.
  intros c c' r Hq. apply lift_memory_inv in Hq as ->.
  unfold contents_kept. simpl. apply memory_extend_prefix.
Qed.

Lemma contents_kept_scope {A} (f : State -> A) :
  respects contents_kept (lift_vm (state_db true (reading f))).
Proof. intros c c' r Hq. apply scope_inv in Hq as ->. apply contents_kept_refl. Qed.

Lemma contents_kept_failed_write (start_position size : N) (value : bytes) :
  respects_raising contents_kept (lift_memory (memory_write start_position size value)).
Proof.
  intros c c' e Hq. pose proof (lift_memory_inv _ _ _ _ Hq) as ->.
  unfold lift_memory in Hq. unfold contents_kept. simpl.
  unfold memory_write in *.
  destruct (negb _); [by rewrite take_ge|].
  destruct (_ <? _)%N; [by rewrite take_ge|].
  simpl in Hq. discriminate.
Qed.

Lemma copy_steps_failure (start_position size word_fee : N) (fetch : M bytes) :
  respects contents_kept fetch ->
  respects_raising contents_kept (copy_steps start_position size word_fee fetch).
Proof.
  intros Hfetch. unfold copy_steps.
  apply respects_raising_bind; [apply contents_kept_trans| |intros _].
  { apply respects_extend_memory;
      [apply contents_kept_refl|apply contents_kept_trans
       |apply contents_kept_gas|apply contents_kept_extend]. }
  apply respects_raising_bind; [apply contents_kept_trans|apply contents_kept_gas|intros _].
  apply respects_raising_bind; [apply contents_kept_trans|exact Hfetch|intros chunk].
  apply contents_kept_failed_write.
Qed.

(** X7.  When CALLDATACOPY, CODECOPY or EXTCODECOPY raises, for whatever
    reason, no byte of the memory it started with has been overwritten:
    the former memory is the beginning of the memory it leaves. *)
Theorem copy_failure_keeps_contents (op : M unit) (c c' : Computation) (e : VMError) :
  op ∈ copy_opcodes -> op c = (c', Raise e) ->
  take (length (memory c)) (memory c') = memory c.
Proof.
  unfold copy_opcodes. intros Hin Hrun. change (contents_kept c c').
  assert (Hpop3 : respects contents_kept pop3_uint256).
  { apply respects_pop3_uint256;
      [apply contents_kept_refl|apply contents_kept_trans|apply contents_kept_pop]. }
  assert (Hpopb : respects contents_kept pop_bytes).
  { apply respects_pop_bytes;
      [apply contents_kept_refl|apply contents_kept_trans|apply contents_kept_pop]. }
  repeat (apply elem_of_cons in Hin as [->|Hin]);
    try (apply elem_of_nil in Hin; contradiction).
  - rewrite calldatacopy_steps in Hrun. revert c c' e Hrun.
    apply respects_raising_bind; [apply contents_kept_trans|exact Hpop3|].
    intros [[m s] n]. apply copy_steps_failure.
    intros c c' r [= <- _]. apply contents_kept_refl.
  - rewrite codecopy_steps in Hrun. revert c c' e Hrun.
    apply respects_raising_bind; [apply contents_kept_trans|exact Hpop3|].
    intros [[m s] n]. apply copy_steps_failure.
    intros c c' r Hq. apply seek_read_inv in Hq as ->. apply contents_kept_refl.
  - rewrite extcodecopy_steps in Hrun. revert c c' e Hrun.
    apply respects_raising_bind; [apply contents_kept_trans|exact Hpopb|].
    intros raw. cbv zeta.
    apply respects_raising_bind; [apply contents_kept_trans|exact Hpop3|].
    intros [[m s] n]. apply copy_steps_failure.
    apply respects_bind; [apply contents_kept_trans|apply contents_kept_scope|].
    intros cd. apply respects_ret. apply contents_kept_refl.
Qed.

Lemma lookup_copied_outside (start_position size : N) (chunk : bytes) (m : Memory)
    (i : nat) :
  length chunk <= N.to_nat size ->
  i < N.to_nat start_position \/ N.to_nat (start_position + size) <= i ->
  copied start_position size chunk m !! i = memory_extend start_position size m !! i.
Proof.
  intros Hle Hout. unfold copied. cbv zeta.
  pose proof (length_memory_extend start_position size m) as Hext.
  set (m' := memory_extend start_position size m) in *.
  destruct Hout as [Hbefore|Hafter].
  - rewrite lookup_app_l by (rewrite length_take; lia).
    by rewrite lookup_take_lt.
  - rewrite lookup_app_r by (rewrite length_take; lia).
    rewrite lookup_app_r by (rewrite length_take, length_pad_right; lia).
    rewrite length_take, length_pad_right by done.
    rewrite lookup_drop. f_equal. lia.
Qed.

Lemma lookup_memory_extend_old (start_position size : N) (m : Memory) (i : nat) :
  i < length m -> memory_extend start_position size m !! i = m !! i.
Proof.
  intros Hi. rewrite <- (memory_extend_prefix start_position size m) at 2.
  by rewrite lookup_take_lt.
Qed.

Lemma region_of_copied (start_position size : N) (chunk : bytes) (m : Memory) :
  length chunk <= N.to_nat size ->
  take (N.to_nat size) (drop (N.to_nat start_position) (copied start_position size chunk m))
  = pad_right chunk size x00.
Proof.
  intros Hle. unfold copied. cbv zeta.
  pose proof (length_memory_extend start_position size m) as Hext.
  rewrite drop_app_length' by (rewrite length_take; lia).
  by rewrite take_app_length' by (by rewrite length_pad_right).
Qed.

Lemma copied_outside_kept (m n : N) (chunk : bytes) (mem : Memory) :
  length chunk <= N.to_nat n ->
  outside_kept m n mem (copied m n chunk mem).
Proof.
  intros Hle i Hout. rewrite lookup_copied_outside by done. split.
  - apply lookup_memory_extend_old.
  - rewrite length_copied by done. apply memory_extend_fill.
Qed.

(** X8.  A copy opcode that completes writes inside its region only:
    every byte of the former memory outside memOffset .. memOffset+size
    is what it was, and every added byte outside the region is zero. *)
Theorem copy_writes_inside_region_only
    (c : Computation) (v0 v1 v2 v3 : StackItem) (rest : Stack) :
  let m := item_to_uint256 v1 in
  let n := item_to_uint256 v3 in
  (expansion_fee (memory c) m n + ceil_div n 32 * GAS_COPY
     <= gas_remaining (gas_meter c))%N ->
  (exists c', calldatacopy (set_stack (v1 :: v2 :: v3 :: rest) c) = (c', Ok tt)
              /\ outside_kept m n (memory c) (memory c'))
  /\ (exists c', codecopy (set_stack (v1 :: v2 :: v3 :: rest) c) = (c', Ok tt)
                 /\ outside_kept m n (memory c) (memory c'))
  /\ (exists c', extcodecopy (set_stack (v0 :: v1 :: v2 :: v3 :: rest) c) = (c', Ok tt)
                 /\ outside_kept m n (memory c) (memory c')).
Proof.
  intros m n Hgas. split; [|split].
  - eexists. split; [by apply calldatacopy_ok|].
    apply copied_outside_kept. rewrite length_slice. lia.
  - eexists. split; [by apply codecopy_ok|].
    apply copied_outside_kept. rewrite length_slice. lia.
  - eexists. split; [by apply extcodecopy_ok|].
    apply copied_outside_kept. rewrite length_slice. lia.
Qed.

End CopyFrames.

(** ** CALLDATALOAD, further *)

Section Loading.
Context `{SA : StateAccess} `{GS : GasSchedule} `{CO : Coercions}.

Lemma big_endian_fold_bound (b : bytes) (acc : N) :
  (fold_left (fun a x => a * 256 + Byte.to_N x) b acc
   < (acc + 1) * 256 ^ N.of_nat (length b))%N.
Proof.
  revert acc. induction b as [|x b IH]; intros acc.
  - simpl. lia.
  - cbn [fold_left length]. specialize (IH (acc * 256 + Byte.to_N x)%N).
    pose proof (Byte.to_N_bounded x) as Hx.
    rewrite Nat2N.inj_succ, N.pow_succ_r'.
    set (p := (256 ^ N.of_nat (length b))%N) in *.
    set (f := fold_left _ b _) in *. clearbody f p.
    set (xv := Byte.to_N x) in *. clearbody xv. nia.
Qed.

Lemma big_endian_to_int_bound (b : bytes) :
  (big_endian_to_int b < 256 ^ N.of_nat (length b))%N.
Proof.
  pose proof (big_endian_fold_bound b 0) as H. unfold big_endian_to_int.
  by rewrite N.add_0_l, N.mul_1_l in H.
Qed.

Lemma length_lstrip (b : bytes) (z : byte) : length (lstrip b z) <= length b.
Proof.
  induction b as [|x b IH]; simpl; [lia|].
  destruct (decide (x = z)); simpl; lia.
Qed.

Lemma head_lstrip (b : bytes) (z : byte) : head (lstrip b z) <> Some z.
Proof.
  induction b as [|x b IH]; simpl; [discriminate|].
  destruct (decide (x = z)); [exact IH|]. simpl. congruence.
Qed.

Lemma length_window_padded (c : Computation) (o : N) :
  length (pad_right (calldata_window c o) 32 x00) = 32.
Proof.
  rewrite length_pad_right; [reflexivity|].
  unfold calldata_window. rewrite length_slice. lia.
Qed.

(** X10.  The word that CALLDATALOAD pushes is at most 32 bytes long, has
    no leading zero byte and is below 2^256 as an integer; when the whole
    window lies inside the call data (o + 32 <= len(D)) it is the integer
    of the 32 bytes D[o:o+32]. *)
Theorem calldataload_word (c : Computation) (v : StackItem) (rest : Stack) :
  let D := msg_data (msg c) in
  let o := N.to_nat (item_to_uint256 v) in
  length rest < STACK_DEPTH_LIMIT ->
  exists w,
    calldataload (set_stack (v :: rest) c) = (set_stack (BytesItem w :: rest) c, Ok tt)
    /\ length w <= 32
    /\ head w <> Some x00
    /\ (big_endian_to_int w < 2 ^ 256)%N
    /\ (o + 32 <= length D ->
        big_endian_to_int w = big_endian_to_int (take 32 (drop o D))
        /\ length (take 32 (drop o D)) = 32).
Proof.
  intros D o Hdepth. eexists. split; [by apply calldataload_run|].
  split; [|split; [|split]].
  - etransitivity; [apply length_lstrip|]. by rewrite length_window_padded.
  - apply head_lstrip.
  - rewrite big_endian_to_int_lstrip.
    pose proof (big_endian_to_int_bound
                  (pad_right (calldata_window c (item_to_uint256 v)) 32 x00)) as Hb.
    rewrite length_window_padded in Hb.
    by replace (256 ^ N.of_nat 32)%N with (2 ^ 256)%N in Hb by reflexivity.
  - intros Hfull. rewrite big_endian_to_int_lstrip.
    assert (Hwin : calldata_window c (item_to_uint256 v) = take 32 (drop o D)).
    { unfold calldata_window, slice. fold D o. f_equal. lia. }
    assert (Hlen : length (take 32 (drop o D)) = 32).
    { rewrite length_take, length_drop. lia. }
    split; [|exact Hlen].
    rewrite Hwin. unfold pad_right. rewrite Hlen. reflexivity.
Qed.

(** X11.  CALLDATACOPY of 32 bytes from offset o leaves in its memory
    region the very word that CALLDATALOAD pushes for the same offset:
    the 32 bytes at memOffset, read as a big-endian integer, are the
    integer of the pushed word. *)
Theorem calldatacopy_agrees_with_calldataload
    (c : Computation) (v1 v2 : StackItem) (rest rest' : Stack) :
  let m := item_to_uint256 v1 in
  (expansion_fee (memory c) m 32 + ceil_div 32 32 * GAS_COPY
     <= gas_remaining (gas_meter c))%N ->
  length rest' < STACK_DEPTH_LIMIT ->
  exists c1 w,
    calldatacopy (set_stack (v1 :: v2 :: IntItem 32 :: rest) c) = (c1, Ok tt)
    /\ calldataload (set_stack (v2 :: rest') c)
       = (set_stack (BytesItem w :: rest') c, Ok tt)
    /\ big_endian_to_int (take 32 (drop (N.to_nat m) (memory c1))) = big_endian_to_int w.
Proof.
  intros m Hgas Hdepth. eexists. eexists.
  split; [exact (calldatacopy_ok c v1 v2 (IntItem 32) rest Hgas)|].
  split; [by apply calldataload_run|].
  cbn [memory set_memory item_to_uint256].
  rewrite (region_of_copied m 32) by (rewrite length_slice; lia).
  by rewrite big_endian_to_int_lstrip.
Qed.

(** X12.  CALLDATASIZE followed by CALLDATALOAD, which loads at the
    offset just pushed, always pushes the empty word, the integer 0,
    whatever the call data is. *)
Theorem load_at_calldatasize_is_zero (c : Computation) :
  length (stack c) < STACK_DEPTH_LIMIT ->
  load_at_calldatasize c = (set_stack (BytesItem [] :: stack c) c, Ok tt)
  /\ item_to_uint256 (BytesItem []) = 0%N.
Proof.
  intros Hdepth. split; [|reflexivity].
  unfold load_at_calldatasize, bind, calldatasize.
  rewrite push_run by exact Hdepth.
  pose proof (calldataload_run c (IntItem (N.of_nat (length (msg_data (msg c)))))
                (stack c) Hdepth) as Hrun.
  cbn [msg set_stack] in *. rewrite Hrun.
  rewrite window_past_end by (cbn [item_to_uint256]; lia).
  reflexivity.
Qed.

End Loading.

(** ** The VM driver, further *)

Section Scopes.
Context `{SN : SnapshotAccess}.

Lemma state_db_left_normally {A} (read_only : bool)
    (body : State -> VM -> State * VM * Result A) (v v'' : VM) (a : A) :
  state_db read_only body v = (v'', Ok a) ->
  exists state' v',
    body (new_state (vm_db v) (state_root (header (block v)))) v = (state', v', Ok a)
    /\ state_root (header (block v'')) = root_hash state'
    /\ vm_db v'' = vm_db v'
    /\ parent_hash (header (block v'')) = parent_hash (header (block v'))
    /\ block_number (header (block v'')) = block_number (header (block v'))
    /\ coinbase (header (block v'')) = coinbase (header (block v')).
Proof.
  intros Hrun. unfold state_db in Hrun.
  destruct (body _ v) as [[state' v'] [a'|e]] eqn:Hbody; [|discriminate].
  exists state', v'. unfold state_db_release in Hrun.
  destruct read_only.
  - destruct (decide (root_hash state' = state_root (header (block v')))) as [Heq|];
      [|discriminate].
    injection Hrun as <- <-. by repeat split.
  - destruct (decide (state_root (header (block v')) <> root_hash state')) as [|Hnn].
    + injection Hrun as <- <-. by repeat split.
    + injection Hrun as <- <-. repeat split; try done.
      destruct (decide (state_root (header (block v')) = root_hash state')); [done|].
      by destruct Hnn.
Qed.

(** X13.  Whenever a [state_db] scope is left normally, read-only or
    not, and whatever its body did, the state root of the block header
    is the root of the state object; the release has changed nothing
    else of the VM as the body left it. *)
Theorem state_db_header_follows_state {A} (read_only : bool)
    (body : State -> VM -> State * VM * Result A) (v v'' : VM) (a : A) :
  state_db read_only body v = (v'', Ok a) ->
  exists state' v',
    body (new_state (vm_db v) (state_root (header (block v)))) v = (state', v', Ok a)
    /\ state_root (header (block v'')) = root_hash state'
    /\ vm_db v'' = vm_db v'
    /\ parent_hash (header (block v'')) = parent_hash (header (block v'))
    /\ block_number (header (block v'')) = block_number (header (block v'))
    /\ coinbase (header (block v'')) = coinbase (header (block v')).
Proof. apply state_db_left_normally. Qed.

(** X14.  If taking a snapshot does not move the root of a state and
    reverting to a snapshot leads to the root at which it was taken, then
    [VM.snapshot] returns the snapshot and leaves the VM as it is, and a
    later [VM.revert] to it, on any VM, puts the state root of the
    snapshot's VM into the header and changes nothing else. *)
Theorem revert_to_snapshot (self later : VM) :
  (forall st, root_hash (fst (state_snapshot st)) = root_hash st) ->
  (forall st st2, root_hash (state_revert st2 (snd (state_snapshot st))) = root_hash st) ->
  exists s later',
    snapshot self = (self, Ok s)
    /\ revert s later = (later', Ok tt)
    /\ state_root (header (block later')) = state_root (header (block self))
    /\ vm_db later' = vm_db later
    /\ parent_hash (header (block later')) = parent_hash (header (block later))
    /\ block_number (header (block later')) = block_number (header (block later))
    /\ coinbase (header (block later')) = coinbase (header (block later)).
Proof.
  intros Hkeeps Hback.
  set (st0 := new_state (vm_db self) (state_root (header (block self)))).
  exists (snd (state_snapshot st0)).
  assert (Hsnap : snapshot self = (self, Ok (snd (state_snapshot st0)))).
  { unfold snapshot, state_db, state_db_release. fold st0.
    pose proof (Hkeeps st0) as Hk. destruct (state_snapshot st0) as [st1 s].
    simpl in *. rewrite Hk. unfold st0. rewrite root_hash_new_state.
    by destruct (decide (state_root (header (block self))
                         = state_root (header (block self)))). }
  destruct (revert (snd (state_snapshot st0)) later) as [later' r] eqn:Hrev.
  assert (Hok : r = Ok tt).
  { unfold revert, state_db, state_db_release in Hrev.
    destruct (decide _) in Hrev; by injection Hrev as _ <-. }
  subst r. exists later'. split; [exact Hsnap|]. split; [reflexivity|].
  unfold revert in Hrev.
  destruct (state_db_left_normally _ _ _ _ _ Hrev)
    as (state' & v' & Hbody & Hroot & Hdb & Hparent & Hnumber & Hcoinbase).
  injection Hbody as <- <-.
  rewrite Hroot, Hback. unfold st0. by rewrite root_hash_new_state.
Qed.

End Scopes.

Section Ancestors.
Context `{CA : ChainAccess}.

Lemma linked_number (db : DB) (h a : BlockHeader) (k : nat) :
  linked db h k a -> block_number a = (block_number h - Z.of_nat k)%Z.
Proof.
  induction 1 as [h|h h' k a Hget Hnum Hlinked IH]; [lia|].
  rewrite IH, Hnum. lia.
Qed.

Lemma ancestor_walk_linked (db : DB) (h a : BlockHeader) (k fuel : nat) :
  linked db h k a -> k <= fuel ->
  ancestor_walk fuel db h (block_number a) = Some (Ok (header_hash a)).
Proof.
  intros Hlinked. revert fuel.
  induction Hlinked as [h|h h' k a Hget Hnum Hlinked IH]; intros fuel Hfuel.
  - destruct fuel; simpl; by rewrite Z.eqb_refl.
  - pose proof (linked_number _ _ _ _ Hlinked) as Ha.
    destruct fuel as [|fuel]; [lia|]. simpl.
    destruct (Z.eqb_spec (block_number h) (block_number a)); [lia|].
    rewrite Hget. apply IH. lia.
Qed.

(** X15.  On a store in which the parent hashes lead from the block's
    parent down the chain, one block number at a time, to a header [a]
    in fewer than 256 steps, [get_ancestor_hash] for the number of [a]
    returns the hash of [a]; the loop ends within as many turns as there
    are steps, so any fuel of at least that many gives the result. *)
Theorem get_ancestor_hash_on_chain (fuel : nat) (self : VM)
    (p a : BlockHeader) (k : nat) :
  get_block_header_by_hash (vm_db self) (parent_hash (header (block self))) = Ok p ->
  block_number p = (number (block self) - 1)%Z ->
  linked (vm_db self) p k a ->
  k < 256 -> k <= fuel ->
  get_ancestor_hash fuel self (block_number a) = Some (Ok (header_hash a)).
Proof.
  intros Hparent Hnum Hlinked Hdepth Hfuel.
  pose proof (linked_number _ _ _ _ Hlinked) as Ha.
  unfold get_ancestor_hash. cbv zeta. rewrite Z.gtb_ltb.
  destruct (Z.ltb_spec 256 (number (block self) - block_number a)); [lia|].
  destruct (Z.ltb_spec (number (block self) - block_number a) 1); [lia|].
  simpl. rewrite Hparent. by apply (ancestor_walk_linked _ p a k).
Qed.

End Ancestors.

Section Rewards.
Context `{MA : MiningAccess}.

(** X16.  With a positive penalty factor and a block reward that is not
    negative, the reward of an uncle that is at most
    UNCLE_DEPTH_PENALTY_FACTOR blocks older than the block lies between 0
    and BLOCK_REWARD, it does not grow with the age of the uncle, it is 0
    at an age of exactly the factor and BLOCK_REWARD at age 0. *)
Theorem uncle_reward_in_range (uncle_number older_uncle block_number : Z) :
  (0 < UNCLE_DEPTH_PENALTY_FACTOR)%Z ->
  (0 <= BLOCK_REWARD)%Z ->
  (block_number - UNCLE_DEPTH_PENALTY_FACTOR <= older_uncle <= uncle_number)%Z ->
  (uncle_number <= block_number)%Z ->
  (0 <= uncle_reward older_uncle block_number
     <= uncle_reward uncle_number block_number)%Z
  /\ (uncle_reward uncle_number block_number <= BLOCK_REWARD)%Z
  /\ uncle_reward (block_number - UNCLE_DEPTH_PENALTY_FACTOR) block_number = 0%Z
  /\ uncle_reward block_number block_number = BLOCK_REWARD.
Proof.
  intros Hfactor Hreward Holder Hle. unfold uncle_reward.
  set (F := UNCLE_DEPTH_PENALTY_FACTOR) in *. set (B := BLOCK_REWARD) in *.
  assert (Hfull : (B * (F + block_number - block_number) / F = B)%Z).
  { replace (F + block_number - block_number)%Z with F by lia.
    apply Z.div_mul. lia. }
  split; [split|split; [|split]].
  - apply Z.div_pos; [nia|lia].
  - apply Z.div_le_mono; [lia|nia].
  - rewrite <- Hfull at 2. apply Z.div_le_mono; [lia|nia].
  - replace (F + (block_number - F) - block_number)%Z with 0%Z by lia.
    by rewrite Z.mul_0_r.
  - exact Hfull.
Qed.

(** X17.  For an uncle that is more than UNCLE_DEPTH_PENALTY_FACTOR
    blocks older than the block, the formula of [mine_block] gives a
    negative amount (the floor division rounds it down): with a positive
    reward the uncle's coinbase would be debited. *)
Theorem uncle_reward_too_old_is_negative (uncle_number block_number : Z) :
  (0 < UNCLE_DEPTH_PENALTY_FACTOR)%Z ->
  (0 < BLOCK_REWARD)%Z ->
  (uncle_number < block_number - UNCLE_DEPTH_PENALTY_FACTOR)%Z ->
  (uncle_reward uncle_number block_number < 0)%Z.
Proof.
  intros Hfactor Hreward Hold. unfold uncle_reward.
  apply Z.div_lt_upper_bound; [lia|]. nia.
Qed.

Lemma pay_rewards_payments (b : Block) (uncles : list BlockHeader) (block_reward : Z)
    (st : State) :
  pay_rewards b uncles block_reward st
  = fold_left (fun s p => delta_balance s p.1 p.2)
      ((coinbase (header b), block_reward)
         :: map (fun uncle =>
                   (coinbase uncle,
                    (BLOCK_REWARD
                     * (UNCLE_DEPTH_PENALTY_FACTOR + block_number uncle - number b)
                     / UNCLE_DEPTH_PENALTY_FACTOR)%Z)) uncles)
      st.
Proof.
  unfold pay_rewards. cbn [fold_left fst snd].
  generalize (delta_balance st (coinbase (header b)) block_reward) as s0.
  induction uncles as [|uncle uncles IH]; intros s0; [reflexivity|].
  cbn [fold_left map fst snd]. apply IH.
Qed.

(** X18.  When the block's own [mine] succeeds: a block with number 0 is
    returned without any reward and without opening the state; for any
    other number the payments are, in this order, BLOCK_REWARD plus
    NEPHEW_REWARD per uncle to the block's coinbase, then to each uncle's
    coinbase BLOCK_REWARD * (FACTOR + uncle number - block number) //
    FACTOR, made by [delta_balance] on a state opened at the block's
    state root, and the returned block carries the root of the state
    after the last payment, the rest of its header being as mining left
    it. *)
Theorem mine_block_rewards (uncles : list BlockHeader) (self : VM) (mined : Block) :
  block_mine (block self) = (mined, Ok tt) ->
  (number mined = 0%Z -> mine_block uncles self = (set_block mined self, Ok mined))
  /\ (number mined <> 0%Z ->
      let payments :=
        (coinbase (header mined),
         (BLOCK_REWARD + Z.of_nat (length uncles) * NEPHEW_REWARD)%Z)
          :: map (fun uncle =>
                    (coinbase uncle,
                     (BLOCK_REWARD
                      * (UNCLE_DEPTH_PENALTY_FACTOR + block_number uncle - number mined)
                      / UNCLE_DEPTH_PENALTY_FACTOR)%Z)) uncles in
      let final := fold_left (fun st p => delta_balance st p.1 p.2) payments
                     (new_state (vm_db self) (state_root (header mined))) in
      exists self',
        mine_block uncles self = (self', Ok (block self'))
        /\ state_root (header (block self')) = root_hash final
        /\ parent_hash (header (block self')) = parent_hash (header mined)
        /\ block_number (header (block self')) = block_number (header mined)
        /\ coinbase (header (block self')) = coinbase (header mined)).
Proof.
  intros Hmine. split.
  - intros Hzero. unfold mine_block. rewrite Hmine.
    by destruct (Z.eqb_spec (number mined) 0).
  - intros Hnonzero payments final. unfold mine_block. rewrite Hmine.
    destruct (Z.eqb_spec (number mined) 0) as [|_]; [done|].
    unfold get_block_reward, get_nephew_reward.
    destruct (state_db false _ (set_block mined self)) as [self2 r] eqn:Hscope.
    assert (Hok : r = Ok tt).
    { unfold state_db, state_db_release in Hscope.
      destruct (decide _) in Hscope; by injection Hscope as _ <-. }
    subst r. exists self2. split; [reflexivity|].
    destruct (state_db_left_normally _ _ _ _ _ Hscope)
      as (state' & v' & Hbody & Hroot & Hdb & Hparent & Hnumber & Hcoinbase).
    injection Hbody as <- <-.
    rewrite pay_rewards_payments in Hroot. by repeat split.
Qed.

End Rewards.

(** ** [VM.configure] *)

Section Configuring.
Context {V : Type}.

Lemma check_overrides_present (keys : list string) (cls : VMClass V) :
  (forall k, k ∈ keys -> is_Some (class_attrs cls !! k)) ->
  check_overrides keys cls = Ok tt.
Proof.
  induction keys as [|key keys IH]; intros Hall; [reflexivity|]. simpl.
  destruct (Hall key) as [v Hv]; [by left|]. rewrite Hv.
  apply IH. intros k Hk. apply Hall. by right.
Qed.

Lemma check_overrides_missing (keys : list string) (cls : VMClass V) (k : string) :
  k ∈ keys -> class_attrs cls !! k = None ->
  check_overrides keys cls = Raise TypeError.
Proof.
  induction keys as [|key keys IH]; intros Hin Hnone.
  - by apply elem_of_nil in Hin.
  - simpl. destruct (class_attrs cls !! key) eqn:Hkey; [|reflexivity].
    apply elem_of_cons in Hin as [->|Hin]; [congruence|]. by apply IH.
Qed.

Lemma override_keys (overrides : gmap string V) (k : string) :
  k ∈ (map_to_list overrides).*1 <-> is_Some (overrides !! k).
Proof.
  rewrite list_elem_of_fmap. split.
  - intros [[k' v] [-> Hin]]. apply elem_of_map_to_list in Hin. by exists v.
  - intros [v Hv]. exists (k, v). split; [reflexivity|]. by apply elem_of_map_to_list.
Qed.

Lemma configure_ok_keys (cls cls' : VMClass V) (name : option string)
    (overrides : gmap string V) (k : string) :
  configure cls name overrides = Ok cls' ->
  is_Some (overrides !! k) -> is_Some (class_attrs cls !! k).
Proof.
  intros Hok Hk. destruct (class_attrs cls !! k) eqn:Hc; [by eexists|].
  unfold configure in Hok.
  rewrite (check_overrides_missing _ cls k) in Hok;
    [discriminate|by apply override_keys|exact Hc].
Qed.



End Configuring.

(** ** Further concrete runs *)

Import InMemoryDriver.

Lemma context_opcodes_keep_surroundings_witness :
  let c := computation [IntItem 0; IntItem 1; IntItem 4] [] 10 [x0a; x0b] [] in
  msg (fst (calldatacopy (GS:=metered_memory) c)) = msg c
  /\ vm (fst (calldatacopy (GS:=metered_memory) c)) = vm c
  /\ code (fst (calldatacopy (GS:=metered_memory) c)) = code c.
Proof.
  cbv zeta.
  apply (context_opcodes_keep_surroundings (GS:=metered_memory) (calldatacopy (GS:=metered_memory)) _ _
           (snd (calldatacopy (GS:=metered_memory)
                   (computation [IntItem 0; IntItem 1; IntItem 4] [] 10 [x0a; x0b] [])))).
  - unfold context_opcodes. by repeat constructor.
  - reflexivity.
Defined.

Lemma context_opcodes_never_add_gas_witness :
  let c := computation [IntItem 0; IntItem 0; IntItem 4] [] 10 [] [x60; x00] in
  (gas_remaining (gas_meter (fst (codecopy (GS:=metered_memory) c))) <= 10)%N.
Proof.
  cbv zeta.
  apply (context_opcodes_never_add_gas (GS:=metered_memory) (codecopy (GS:=metered_memory))
           (computation [IntItem 0; IntItem 0; IntItem 4] [] 10 [] [x60; x00]) _
           (snd (codecopy (GS:=metered_memory)
                   (computation [IntItem 0; IntItem 0; IntItem 4] [] 10 [] [x60; x00])))).
  - unfold context_opcodes. by repeat constructor.
  - reflexivity.
Defined.

Lemma context_opcodes_keep_stack_depth_witness :
  let c := computation (replicate 1024 (IntItem 0)) [] 0 [] [] in
  length (stack (fst (calldatasize c))) <= STACK_DEPTH_LIMIT.
Proof.
  cbv zeta.
  apply (context_opcodes_keep_stack_depth (GS:=metered_memory) calldatasize
           (computation (replicate 1024 (IntItem 0)) [] 0 [] []) _
           (snd (calldatasize (computation (replicate 1024 (IntItem 0)) [] 0 [] [])))).
  - unfold context_opcodes. by repeat constructor.
  - reflexivity.
  - vm_compute. lia.
Defined.

Lemma context_opcodes_never_shrink_memory_witness :
  let c := computation [IntItem 0; IntItem 0; IntItem 64] (replicate 32 x01) 4 [] [] in
  32 <= length (memory (fst (calldatacopy (GS:=metered_memory) c))).
Proof.
  cbv zeta.
  apply (context_opcodes_never_shrink_memory (GS:=metered_memory) (calldatacopy (GS:=metered_memory))
           (computation [IntItem 0; IntItem 0; IntItem 64] (replicate 32 x01) 4 [] []) _
           (snd (calldatacopy (GS:=metered_memory)
                   (computation [IntItem 0; IntItem 0; IntItem 64] (replicate 32 x01)
                      4 [] [])))).
  - unfold context_opcodes. by repeat constructor.
  - reflexivity.
Defined.

Lemma plain_opcodes_leave_memory_and_gas_witness :
  let c := computation [BytesItem [x05]] [x01; x02] 7 [] [] in
  memory (fst (balance c)) = [x01; x02]
  /\ gas_meter (fst (balance c)) = {| gas_remaining := 7; gas_refunded := 0 |}.
Proof.
  cbv zeta.
  apply (plain_opcodes_leave_memory_and_gas balance
           (computation [BytesItem [x05]] [x01; x02] 7 [] []) _
           (snd (balance (computation [BytesItem [x05]] [x01; x02] 7 [] [])))).
  - unfold plain_opcodes. by repeat constructor.
  - reflexivity.
Defined.

Lemma copy_failure_keeps_contents_witness :
  let c := computation [IntItem 0; IntItem 0; IntItem 64] (replicate 32 x01) 4 [] [] in
  take 32 (memory (fst (calldatacopy (GS:=metered_memory) c))) = replicate 32 x01.
Proof.
  cbv zeta.
  apply (copy_failure_keeps_contents (GS:=metered_memory) (calldatacopy (GS:=metered_memory))
           (computation [IntItem 0; IntItem 0; IntItem 64] (replicate 32 x01) 4 [] [])
           _ OutOfGas).
  - unfold copy_opcodes. by repeat constructor.
  - reflexivity.
Defined.

Lemma copy_writes_inside_region_only_witness :
  exists c',
    calldatacopy (GS:=metered_memory)
      (computation [IntItem 1; IntItem 0; IntItem 2] [x01; x02; x03; x04] 10 [x0a; x0b] [])
    = (c', Ok tt)
    /\ memory c' !! 0 = Some x01
    /\ memory c' !! 3 = Some x04.
Proof.
  destruct (copy_writes_inside_region_only (GS:=metered_memory)
              (computation [] [x01; x02; x03; x04] 10 [x0a; x0b] [])
              (IntItem 0) (IntItem 1) (IntItem 0) (IntItem 2) [])
    as [(c' & Hrun & Hout) _]; [by vm_compute|].
  exists c'. split; [exact Hrun|]. split.
  - apply (Hout 0); [left; vm_compute; lia|vm_compute; lia].
  - apply (Hout 3); [right; vm_compute; lia|vm_compute; lia].
Defined.

Lemma calldataload_word_witness :
  exists w,
    calldataload (computation [IntItem 1] [] 0 (x00 :: x07 :: replicate 40 x00) [])
    = (computation [BytesItem w] [] 0 (x00 :: x07 :: replicate 40 x00) [], Ok tt)
    /\ big_endian_to_int w = big_endian_to_int (x07 :: replicate 31 x00).
Proof.
  destruct (calldataload_word
              (computation [] [] 0 (x00 :: x07 :: replicate 40 x00) []) (IntItem 1) [])
    as (w & Hrun & _ & _ & _ & Hfull); [vm_compute; lia|].
  exists w. split; [exact Hrun|]. apply Hfull. vm_compute. lia.
Defined.

Lemma calldatacopy_agrees_with_calldataload_witness :
  exists c1 w,
    calldatacopy (GS:=metered_memory)
      (computation [IntItem 0; IntItem 1; IntItem 32] [] 10 [x0a; x0b] []) = (c1, Ok tt)
    /\ calldataload (computation [IntItem 1] [] 10 [x0a; x0b] [])
       = (computation [BytesItem w] [] 10 [x0a; x0b] [], Ok tt)
    /\ big_endian_to_int (take 32 (memory c1)) = big_endian_to_int w.
Proof.
  destruct (calldatacopy_agrees_with_calldataload (GS:=metered_memory)
              (computation [] [] 10 [x0a; x0b] []) (IntItem 0) (IntItem 1) [] [])
    as (c1 & w & Hcopy & Hload & Hsame); [by vm_compute|vm_compute; lia|].
  exists c1, w. split; [exact Hcopy|]. split; [exact Hload|exact Hsame].
Defined.

Lemma load_at_calldatasize_is_zero_witness :
  load_at_calldatasize (computation [] [] 0 [x0a; x0b] [])
  = (computation [BytesItem []] [] 0 [x0a; x0b] [], Ok tt).
Proof.
  apply (load_at_calldatasize_is_zero (computation [] [] 0 [x0a; x0b] [])).
  vm_compute. lia.
Defined.

Lemma state_db_header_follows_state_witness :
  exists state' v',
    rerooting_body (new_state empty_store [x2a]) genesis_vm = (state', v', Ok tt)
    /\ state_root (header (block (set_state_root [x01] genesis_vm))) = root_hash state'.
Proof.
  destruct (state_db_header_follows_state false rerooting_body genesis_vm
              (set_state_root [x01] genesis_vm) tt eq_refl)
    as (state' & v' & Hbody & Hroot & _).
  exists state', v'. split; [exact Hbody|exact Hroot].
Defined.

Lemma revert_to_snapshot_witness :
  exists s later',
    snapshot genesis_vm = (genesis_vm, Ok s)
    /\ revert s (set_state_root [x01] genesis_vm) = (later', Ok tt)
    /\ state_root (header (block later')) = [x2a].
Proof.
  destruct (revert_to_snapshot genesis_vm (set_state_root [x01] genesis_vm))
    as (s & later' & Hsnap & Hrev & Hroot & _).
  - intros st. reflexivity.
  - intros st st2. reflexivity.
  - exists s, later'. split; [exact Hsnap|]. split; [exact Hrev|exact Hroot].
Defined.

Lemma get_ancestor_hash_on_chain_witness :
  get_ancestor_hash (CA:=linked_chain) 2 tip_vm 4 = Some (Ok [x03]).
Proof.
  apply (get_ancestor_hash_on_chain (CA:=linked_chain) 2 tip_vm
           (header_at 6 [x05]) (header_at 4 [x03]) 2).
  - reflexivity.
  - reflexivity.
  - apply (linked_step _ _ (header_at 5 [x04])); [reflexivity|reflexivity|].
    apply (linked_step _ _ (header_at 4 [x03])); [reflexivity|reflexivity|].
    apply linked_here.
  - lia.
  - lia.
Defined.

Lemma uncle_reward_in_range_witness :
  (0 <= uncle_reward 1 7 <= uncle_reward 6 7)%Z /\ (uncle_reward 6 7 <= 5000)%Z.
Proof.
  destruct (uncle_reward_in_range 6 1 7) as (Hmono & Hmax & _).
  - reflexivity.
  - vm_compute. discriminate.
  - vm_compute. split; discriminate.
  - vm_compute. discriminate.
  - split; [exact Hmono|exact Hmax].
Defined.

Lemma uncle_reward_too_old_is_negative_witness : (uncle_reward (-2) 7 < 0)%Z.
Proof.
  apply (uncle_reward_too_old_is_negative (-2) 7); reflexivity.
Defined.

Lemma mine_block_rewards_witness :
  exists self',
    mine_block [uncle_6] tip_vm = (self', Ok (block self'))
    /\ state_root (header (block self')) = [x2a; xc0; x24; xd0; x17]
    /\ (5000 + 1 * 156 = 20 * 256 + 36 /\ 5000 * (8 + 6 - 7) / 8 = 17 * 256 + 23)%Z.
Proof.
  destruct (mine_block_rewards [uncle_6] tip_vm (block tip_vm))
    as [_ Hreward]; [reflexivity|].
  destruct Hreward as (self' & Hrun & Hroot & _).
  - vm_compute. discriminate.
  - exists self'. split; [exact Hrun|]. split; [exact Hroot|]. split; reflexivity.
Defined.


